(** * phys2cvr: regressor synthesis and alignment

    A shallow embedding of [phys2cvr/signal.py] and [phys2cvr/regressors.py].

    Python values are modelled as follows.
    - Python [int]s are [Z]; array lengths are [nat].
    - Python/NumPy floats are an abstract number type [F] with the operations
      of the class [Num].  Two instances are given: [float] (the kernel's
      binary64, which is what CPython and NumPy compute with) and [Qc]
      (canonical rationals, i.e. exact arithmetic).  Statements that do not
      depend on rounding are proved for every instance; statements that need
      exact arithmetic assume the laws of [ExactNum].
    - Scalar division is Python's ([ZeroDivisionError] on a zero divisor),
      array division is NumPy's (it never raises); [int(x)] raises on NaN and
      on infinities.
    - A 1-D array is a [list F]; an n-D array is a shape with its flat data.
    - Exceptions are values of [exn]; logging, plotting and file output are
      recorded as a list of [event]s (a writer), so that a function is a pure
      map from its arguments to the events it emitted and either a result or
      the exception it raised.
    - What the two modules import from elsewhere ([phys2cvr.stats.x_corr],
      [phys2cvr.io], SciPy's gamma density, the file system) is a parameter,
      the class [World]; [export_regressor] is modelled from its description. *)

From Stdlib Require Import ZArith QArith Qcanon Qabs String Ascii List Bool Lia.
From Stdlib Require Import Sorted Qround Lqa.
From Stdlib Require Import Floats.
Import ListNotations.

Set Implicit Arguments.
Local Open Scope string_scope.
Local Open Scope list_scope.
Local Open Scope Z_scope.

(** ** Exceptions, events and the effect monad *)

Inductive exn_class : Type :=
| NotImplementedError
| ValueError
| TypeError
| IndexError
| ZeroDivisionError
| ImportError
| OSError
| OverflowError
| Exception.   (* a bare [Exception(...)] *)

Record exn : Type := mk_exn { exn_cls : exn_class; exn_msg : string }.

Inductive event : Type :=
| LogDebug (msg : string)
| LogInfo (msg : string)
| LogWarning (msg : string)
| Print (msg : string)
| MakeDirs (path : string)
| Plot (path : string)          (* plot_two_timeseries / plot_xcorr *)
| SaveTxt (path : string).      (* np.savetxt / open(..., 'w') *)

Inductive result (A : Type) : Type :=
| Ok (a : A)
| Raise (e : exn).
Arguments Ok {A} a.
Arguments Raise {A} e.

(** A computation: the events emitted so far, and how it ended. *)
Definition M (A : Type) : Type := (list event * result A)%type.

Definition ret {A} (a : A) : M A := ([], Ok a).
Definition raise {A} (c : exn_class) (msg : string) : M A :=
  ([], Raise (mk_exn c msg)).
Definition emit (e : event) : M unit := ([e], Ok tt).
Definition bind {A B} (m : M A) (k : A -> M B) : M B :=
  match m with
  | (tr, Ok a) => let (tr', r) := k a in (tr ++ tr', r)
  | (tr, Raise e) => (tr, Raise e)
  end.
Definition lift {A} (r : result A) : M A := ([], r).

Declare Scope py_scope.
Delimit Scope py_scope with py.
Notation "x <- m ;; k" := (bind m (fun x => k))
  (at level 61, m at next level, right associativity) : py_scope.
Notation "m ;;; k" := (bind m (fun _ => k))
  (at level 61, right associativity) : py_scope.
Local Open Scope py_scope.

Definition events {A} (m : M A) : list event := fst m.
Definition outcome {A} (m : M A) : result A := snd m.

(** Pure, fallible code ([result]) has its own bind. *)
Definition rbind {A B} (r : result A) (k : A -> result B) : result B :=
  match r with Ok a => k a | Raise e => Raise e end.
Notation "x <~ r ;; k" := (rbind r (fun x => k))
  (at level 61, r at next level, right associativity) : py_scope.
Definition rraise {A} (c : exn_class) (msg : string) : result A :=
  Raise (mk_exn c msg).

Fixpoint rmap {A B} (f : A -> result B) (l : list A) : result (list B) :=
  match l with
  | [] => Ok []
  | x :: t => y <~ f x ;; ys <~ rmap f t ;; Ok (y :: ys)
  end.

(** ** Numbers *)

Class Num (F : Type) : Type := {
  of_Z : Z -> F;
  fadd : F -> F -> F;
  fsub : F -> F -> F;
  fmul : F -> F -> F;
  fdiv : F -> F -> F;        (* NumPy array division: never raises *)
  fabs : F -> F;
  fltb : F -> F -> bool;     (* [<] *)
  feqb : F -> F -> bool;     (* [==] *)
  fisnan : F -> bool;        (* [math.isnan(x)] *)
  fisinf : F -> bool;        (* [math.isinf(x)] *)
  ftrunc : F -> Z;           (* [int(x)] for a finite [x]: toward zero *)
  ffloor : F -> Z            (* [math.floor(x)]; used by statements only *)
}.

(** A number that [int] accepts. *)
Definition ffinite {F} {N : Num F} (x : F) : bool :=
  negb (fisnan x || fisinf x).

(** [int] and [floor] agree on what is not below zero. *)
Class TruncFloor (F : Type) (N : Num F) : Prop := {
  ftrunc_floor : forall x : F, fltb x (of_Z 0) = false -> ftrunc x = ffloor x;
  ftrunc_nonneg : forall x : F, fltb x (of_Z 0) = false -> 0 <= ftrunc x
}.

(** Exact arithmetic: the laws used where a statement is about values. *)
Class ExactNum (F : Type) (N : Num F) : Prop := {
  feqb_eq : forall x y : F, feqb x y = true <-> x = y;
  fltb_irrefl : forall x : F, fltb x x = false;
  fltb_trans : forall x y z : F,
      fltb x y = true -> fltb y z = true -> fltb x z = true;
  fltb_cotrans : forall x y z : F,
      fltb x y = false -> fltb y z = false -> fltb x z = false;
  of_Z_lt : forall a b : Z, fltb (of_Z a) (of_Z b) = (a <? b);
  fmul_zero_r : forall x : F, fmul x (of_Z 0) = of_Z 0;
  fadd_zero_l : forall x : F, fadd (of_Z 0) x = x;
  (* the point-slope form is exact at the right end of its interval *)
  flerp_exact : forall (a b : F) (d : Z), d <> 0 ->
      fadd (fmul (fdiv (fsub b a) (of_Z d)) (of_Z d)) a = b;
  fdiv_self : forall x : F, x <> of_Z 0 -> fdiv x x = of_Z 1;
  fdiv_nonzero : forall x y : F, x <> of_Z 0 -> y <> of_Z 0 -> fdiv x y <> of_Z 0;
  fdiv_le_one : forall x m : F, fltb (of_Z 0) m = true -> fltb m x = false ->
      fltb (of_Z 1) (fdiv x m) = false;
  fmul_pos : forall x y : F, fltb (of_Z 0) x = true -> fltb (of_Z 0) y = true ->
      fltb (of_Z 0) (fmul x y) = true;
  fdiv_pos : forall x y : F, fltb (of_Z 0) x = true -> fltb (of_Z 0) y = true ->
      fltb (of_Z 0) (fdiv x y) = true
}.

(** Dividing a finite, non-zero number by itself gives 1: a law of exact
    arithmetic and of binary64 alike. *)
Class DivSelf (F : Type) (N : Num F) : Prop := {
  fdiv_same : forall x : F,
      ffinite x = true -> feqb x (of_Z 0) = false -> fdiv x x = of_Z 1
}.

(** The order on numbers that are not NaN, and the quotient by a positive
    number of what is not above it: laws of exact arithmetic and of binary64
    alike. *)
Class DivOrder (F : Type) (N : Num F) : Prop := {
  dlt_irrefl : forall x : F, fltb x x = false;
  dlt_trans : forall x y z : F,
      fltb x y = true -> fltb y z = true -> fltb x z = true;
  dlt_cotrans : forall x y z : F, fisnan y = false ->
      fltb x y = false -> fltb y z = false -> fltb x z = false;
  ddiv_le_one : forall x m : F, fltb (of_Z 0) m = true -> fltb m x = false ->
      fltb (of_Z 1) (fdiv x m) = false
}.

(** Rounding to the nearest integer, as statements of row counts use it
    (used by statements only; ties are not met below). *)
Definition round_nearest {F} {N : Num F} (x : F) : Z :=
  ffloor (fadd x (fdiv (of_Z 1) (of_Z 2))).

(** *** Instance: exact rationals *)

Definition Qc_trunc (x : Qc) : Z := Z.quot (Qnum x) (Z.pos (Qden x)).
Definition Qc_floor (x : Qc) : Z := Z.div (Qnum x) (Z.pos (Qden x)).

#[export] Instance Num_Qc : Num Qc := {
  of_Z z := Q2Qc (inject_Z z);
  fadd := Qcplus;
  fsub := Qcminus;
  fmul := Qcmult;
  fdiv := Qcdiv;
  fabs x := Q2Qc (Qabs x);
  fltb x y := negb (Qle_bool y x);
  feqb x y := Qeq_bool x y;
  fisnan _ := false;
  fisinf _ := false;
  ftrunc := Qc_trunc;
  ffloor := Qc_floor
}.

(** *** Instance: IEEE 754 binary64 *)

(** The float of an integer below [2^63] in absolute value. *)
Definition float_of_Z (z : Z) : float :=
  if z <? 0 then PrimFloat.opp (PrimFloat.of_uint63 (Uint63.of_Z (- z)))
  else PrimFloat.of_uint63 (Uint63.of_Z z).

(** The integer part of a finite float [(-1)^s * m * 2^e], rounded by [quo]
    (0 on infinities and NaN, where [int] raises: see [py_int]). *)
Definition float_to_Z (quo : Z -> Z -> Z) (x : float) : Z :=
  match Prim2SF x with
  | S754_finite s m e =>
      let v := if s then Z.neg m else Z.pos m in
      if 0 <=? e then v * 2 ^ e else quo v (2 ^ (- e))
  | _ => 0
  end.
Definition float_trunc : float -> Z := float_to_Z Z.quot.
Definition float_floor : float -> Z := float_to_Z Z.div.

#[export] Instance Num_float : Num float := {
  of_Z := float_of_Z;
  fadd := PrimFloat.add;
  fsub := PrimFloat.sub;
  fmul := PrimFloat.mul;
  fdiv := PrimFloat.div;
  fabs := PrimFloat.abs;
  fltb := PrimFloat.ltb;
  feqb := PrimFloat.eqb;
  fisnan := PrimFloat.is_nan;
  fisinf := PrimFloat.is_infinity;
  ftrunc := float_trunc;
  ffloor := float_floor
}.

(** *** Single precision *)

(** What storing a number into a ['float32'] array does to it. *)
Class Float32 (F : Type) : Type := { to_float32 : F -> F }.

(** Exact arithmetic has one precision. *)
#[export] Instance Float32_Qc : Float32 Qc := { to_float32 x := x }.

(** binary64 to binary32 and back: round to nearest, ties to even, with
    24 bits of precision and exponents below 128. *)
#[export] Instance Float32_float : Float32 float := {
  to_float32 x :=
    match Prim2SF x with
    | S754_finite s m e => SF2Prim (SpecFloat.binary_round 24 128 s m e)
    | _ => x
    end
}.

(** ** Python sequences *)

Definition opt_list {A} (o : option A) : list A :=
  match o with Some x => [x] | None => [] end.

Section PySeq.
Context {A : Type}.

(** [PySlice_AdjustIndices]: a bound of a slice, clipped to the sequence. *)
Definition adjust_index (len step i : Z) : Z :=
  if i <? 0 then
    (if i + len <? 0 then (if step <? 0 then -1 else 0) else i + len)
  else if len <=? i then (if step <? 0 then len - 1 else len)
  else i.

Definition slice_start (len step : Z) (start : option Z) : Z :=
  match start with
  | Some i => adjust_index len step i
  | None => if step <? 0 then len - 1 else 0
  end.

Definition slice_stop (len step : Z) (stop : option Z) : Z :=
  match stop with
  | Some i => adjust_index len step i
  | None => if step <? 0 then -1 else len
  end.

Definition slice_length (start stop step : Z) : Z :=
  if step <? 0 then
    (if stop <? start then (start - stop - 1) / (- step) + 1 else 0)
  else
    (if start <? stop then (stop - start - 1) / step + 1 else 0).

(** [l[start:stop:step]] for a non-zero step. *)
Definition py_slice (l : list A) (start stop : option Z) (step : Z) : list A :=
  let len := Z.of_nat (length l) in
  let s := slice_start len step start in
  let e := slice_stop len step stop in
  flat_map (fun k => opt_list (nth_error l (Z.to_nat (s + Z.of_nat k * step))))
           (seq 0 (Z.to_nat (slice_length s e step))).

(** [l[i]] for an integer [i]: negative indices count from the end. *)
Definition py_index (l : list A) (i : Z) : result A :=
  let len := Z.of_nat (length l) in
  let j := if i <? 0 then i + len else i in
  if (j <? 0) || (len <=? j) then rraise IndexError "index out of bounds"
  else match nth_error l (Z.to_nat j) with
       | Some x => Ok x
       | None => rraise IndexError "index out of bounds"
       end.

(** [a[idx]] for an integer array [idx] (NumPy fancy indexing). *)
Definition take (l : list A) (idx : list Z) : result (list A) :=
  rmap (py_index l) idx.
End PySeq.

(** ** NumPy and SciPy primitives *)

Section NumPy.
Context {F : Type} {N : Num F}.

Definition f0 : F := of_Z 0.
Definition f1 : F := of_Z 1.
Definition fgtb (x y : F) : bool := fltb y x.

(** [int(x)]. *)
Definition py_int (x : F) : result Z :=
  if fisnan x then rraise ValueError "cannot convert float NaN to integer"
  else if fisinf x then
    rraise OverflowError "cannot convert float infinity to integer"
  else Ok (ftrunc x).

(** Python scalar division [a / b]. *)
Definition py_div (a b : F) : result F :=
  if feqb b f0 then rraise ZeroDivisionError "division by zero"
  else Ok (fdiv a b).

(** Truthiness of an optional number: [None] and zero are false. *)
Definition truthy (x : option F) : bool :=
  match x with None => false | Some v => negb (feqb v f0) end.
Definition truthyZ (x : option Z) : bool :=
  match x with None => false | Some v => negb (v =? 0) end.

Definition fsum (l : list F) : F := fold_left fadd l f0.
Definition mean (l : list F) : F := fdiv (fsum l) (of_Z (Z.of_nat (length l))).
Definition demean (l : list F) : list F :=
  let m := mean l in map (fun x => fsub x m) l.

(** Builtin [min] / [max] over a sequence. *)
Fixpoint py_min_from (cur : F) (l : list F) : F :=
  match l with
  | [] => cur
  | x :: t => py_min_from (if fltb x cur then x else cur) t
  end.
Definition py_min (l : list F) : result F :=
  match l with
  | [] => rraise ValueError "min() arg is an empty sequence"
  | x :: t => Ok (py_min_from x t)
  end.
Fixpoint py_max_from (cur : F) (l : list F) : F :=
  match l with
  | [] => cur
  | x :: t => py_max_from (if fltb cur x then x else cur) t
  end.
Definition py_max (l : list F) : result F :=
  match l with
  | [] => rraise ValueError "max() arg is an empty sequence"
  | x :: t => Ok (py_max_from x t)
  end.

(** [np.arange(0, n, 1)] for an integer [n]. *)
Definition arangeZ (n : Z) : list Z :=
  map Z.of_nat (seq 0 (Z.to_nat n)).

(** [np.arange(0, stop, 1)] for a float [stop]: [ceil(stop)] values. *)
Definition ceilZ (x : F) : Z :=
  let t := ftrunc x in if fltb (of_Z t) x then t + 1 else t.
Definition arange (stop : F) : result (list F) :=
  if ffinite stop then Ok (map of_Z (arangeZ (ceilZ stop)))
  else rraise ValueError "arange: cannot compute length".

(** [np.linspace(start, stop, num)]. *)
Definition linspace (start stop : F) (num : Z) : result (list F) :=
  if num <? 0 then rraise ValueError "Number of samples must be non-negative."
  else
    let div := num - 1 in
    let delta := fsub stop start in
    let y := map of_Z (arangeZ num) in
    let y :=
      if 0 <? div then
        let step := fdiv delta (of_Z div) in
        if feqb step f0 then map (fun v => fmul (fdiv v (of_Z div)) delta) y
        else map (fun v => fmul v step) y
      else map (fun v => fmul v delta) y in
    let y := map (fun v => fadd v start) y in
    Ok (if 1 <? num then removelast y ++ [stop] else y).

(** [np.pad(x, (l, r), 'mean')] for [l, r >= 0]. *)
Definition pad_mean (x : list F) (l r : Z) : result (list F) :=
  if (length x =? 0)%nat && negb ((l =? 0) && (r =? 0)) then
    rraise ValueError
      "can't extend empty axis 0 using modes other than 'constant' or 'empty'"
  else
    let m := mean x in
    Ok (repeat m (Z.to_nat l) ++ x ++ repeat m (Z.to_nat r)).

(** [sliding_window_view(x, w)]. *)
Definition swv (x : list F) (w : Z) : result (list (list F)) :=
  if w <? 0 then rraise ValueError "`window_shape` cannot contain negative values"
  else if Z.of_nat (length x) <? w then
    rraise ValueError "window shape cannot be larger than input array shape"
  else
    Ok (map (fun i => firstn (Z.to_nat w) (skipn i x))
            (seq 0 (length x - Z.to_nat w + 1))).
End NumPy.

(** [scipy.interpolate.interp1d(x, y, fill_value='extrapolate')] (linear),
    over abscissae of type [X]: integers for peak indices, floats for time. *)
Section Interp1d.
Context {F : Type} {N : Num F}.
Variable X : Type.
Variable xltb : X -> X -> bool.
Variable xsub : X -> X -> X.
Variable toF : X -> F.

(** The constructor sorts the abscissae, carrying the ordinates along. *)
Fixpoint insert_xy (p : X * F) (l : list (X * F)) : list (X * F) :=
  match l with
  | [] => [p]
  | q :: t => if xltb (fst p) (fst q) then p :: q :: t else q :: insert_xy p t
  end.
Definition sort_xy (l : list (X * F)) : list (X * F) :=
  fold_right insert_xy [] l.

(** [np.searchsorted(x, v)]: how many leading abscissae are below [v]. *)
Fixpoint searchsorted (xs : list X) (v : X) : nat :=
  match xs with
  | [] => 0
  | x :: t => if xltb x v then S (searchsorted t v) else 0
  end.

(** [ndarray.clip(lo, hi)]: [minimum(maximum(i, lo), hi)]. *)
Definition clip (i lo hi : Z) : Z := Z.min (Z.max i lo) hi.

Definition call_linear (pts : list (X * F)) (x_new : X) : result F :=
  let xs := map fst pts in
  let ys := map snd pts in
  let i := clip (Z.of_nat (searchsorted xs x_new)) 1 (Z.of_nat (length xs) - 1) in
  x_lo <~ py_index xs (i - 1) ;;
  x_hi <~ py_index xs i ;;
  y_lo <~ py_index ys (i - 1) ;;
  y_hi <~ py_index ys i ;;
  let slope := fdiv (fsub y_hi y_lo) (toF (xsub x_hi x_lo)) in
  Ok (fadd (fmul slope (toF (xsub x_new x_lo))) y_lo).

Definition interp1d (x : list X) (y : list F) (x_new : list X) : result (list F) :=
  if negb (length x =? length y)%nat then
    rraise ValueError "x and y arrays must be equal in length along interpolation axis."
  else if (length x =? 0)%nat then
    rraise ValueError "x and y arrays must have at least 1 entries"
  else rmap (call_linear (sort_xy (combine x y))) x_new.
End Interp1d.

(** ** Arrays with a shape *)

Record ndarray (F : Type) : Type := mk_ndarray {
  shape : list nat;
  data : list F        (* row-major; [length data] is the product of [shape] *)
}.
Arguments mk_ndarray {F} shape data.

Definition ndim {F} (a : ndarray F) : nat := length (shape a).
Definition array1d {F} (l : list F) : ndarray F := mk_ndarray [length l] l.

(** [a.squeeze()]: drop the axes of length one. *)
Definition squeeze {F} (a : ndarray F) : ndarray F :=
  mk_ndarray (filter (fun d => negb (d =? 1)%nat) (shape a)) (data a).

(** ** The environment of the package *)

(** The optional dependency [phys2denoise.metrics.responses]. *)
Record responses (F : Type) : Type := mk_responses {
  rrf : F -> list F;
  crf : F -> list F;
  icrf : F -> list F
}.

(** What the modelled modules take from outside: the file system, SciPy's
    gamma density, and the modules of the package that are not modelled. *)
Class World (F : Type) : Type := {
  path_exists : string -> bool;                 (* [Path(p).exists()] *)
  load_array : string -> result (list F);       (* [phys2cvr.io.load_array] *)
  phys2denoise : option (responses F);          (* [None]: not installed *)
  gamma_pdf : F -> F -> F -> F;                 (* [sct.gamma.pdf(x, a, scale=b)] *)
  (* [phys2cvr.stats.x_corr(func, co2, n_shifts, offset, abs_xcorr)] *)
  x_corr : list F -> list F -> option Z -> Z -> bool -> result (F * Z * list F)
}.

(** ** phys2cvr/signal.py *)

Inductive conv_mode : Type := Full | Valid | Same.

(** The content of a list or array passed as a kernel: numbers, or [size]
    entries of another dtype. *)
Inductive kernel_values (F : Type) : Type :=
| Numeric (v : list F)
| NonNumeric (size : nat).
Arguments Numeric {F} v.
Arguments NonNumeric {F} size.

Definition kernel_size {F} (v : kernel_values F) : nat :=
  match v with Numeric l => length l | NonNumeric n => n end.

(** The dynamic type of the [response_function] argument. *)
Inductive response_function (F : Type) : Type :=
| RF_None
| RF_str (s : string)
| RF_list (v : kernel_values F)
| RF_ndarray (v : kernel_values F)
| RF_path (p : string)                          (* a [PosixPath] *)
| RF_other.                                     (* any other object *)
Arguments RF_None {F}.
Arguments RF_str {F} s.
Arguments RF_list {F} v.
Arguments RF_ndarray {F} v.
Arguments RF_path {F} p.
Arguments RF_other {F}.

(** [str.lower()] on ASCII. *)
Definition lower_ascii (c : ascii) : ascii :=
  let n := nat_of_ascii c in
  if ((65 <=? n) && (n <=? 90))%nat then ascii_of_nat (n + 32) else c.
Fixpoint lower (s : string) : string :=
  match s with
  | EmptyString => EmptyString
  | String c t => String (lower_ascii c) (lower t)
  end.

(** [np.sort(np.unique(peaks))]: ascending, without repetitions. *)
Fixpoint insert_unique (p : Z) (l : list Z) : list Z :=
  match l with
  | [] => [p]
  | q :: t => if p <? q then p :: q :: t
              else if p =? q then q :: t
              else q :: insert_unique p t
  end.
Definition np_unique (l : list Z) : list Z := fold_right insert_unique [] l.

Section Signal.
Context {F : Type} {N : Num F} {W : World F}.

(** [spc] on one time series, the last axis of [ts]: the mean is taken along
    that axis and broadcast back over it. *)
Definition spc (ts : list F) : list F :=
  let m := mean ts in
  let md := if feqb m f0 then f1 else m in
  map (fun x => let v := fdiv (fsub x m) md in if fisnan v then f0 else v) ts.

(** [spc] on a set of time series, one per row. *)
Definition spc_rows (ts : list (list F)) : list (list F) := map spc ts.

Definition eps : F := fdiv f1 (of_Z (2 ^ 52)).       (* np.finfo(float).eps *)
Definition f1e_9 : F := fdiv f1 (of_Z 1000000000).   (* 1e-9 *)

(** [create_hrf], first part: the mixture of gammas on the fine grid, read at
    every [fMRI_T]-th point (up to [hrf = hrf[time_axis]]). *)
Definition hrf_mixture (freq : F) : result (list F) :=
  RT <~ py_div f1 freq ;;
  let fMRI_T := 16 in
  (* p = [6, 16, 1, 1, 6, 0, 32] *)
  let dt := fdiv RT (of_Z fMRI_T) in
  n_u <~ py_div (of_Z 32) dt ;;
  u <~ arange (fadd n_u f1) ;;
  off <~ py_div (of_Z 0) dt ;;
  let u := map (fun v => fsub v off) u in
  let a1 := fdiv (of_Z 6) (of_Z 1) in
  let b1 := fdiv f1 (of_Z 1) in
  let a2 := fdiv (of_Z 16) (of_Z 1) in
  let b2 := fdiv f1 (of_Z 1) in
  let hrf :=
    map (fun v =>
           fdiv (fsub (gamma_pdf (fmul v dt) a1 b1)
                      (fdiv (gamma_pdf (fmul v dt) a2 b2) (of_Z 6)))
                dt) u in
  n_t <~ py_div (of_Z 32) RT ;;
  n <~ py_int (fadd n_t f1) ;;
  let time_axis := map (fun i => i * fMRI_T) (arangeZ n) in
  take hrf time_axis.

(** [10 * np.finfo(float).eps]. *)
Definition hrf_threshold : F := fmul (of_Z 10) eps.

(** [create_hrf], second part: the floor for zeros and the normalisation. *)
Definition hrf_normalise (hrf : list F) : result (list F) :=
  m <~ py_min (filter (fun v => fgtb v hrf_threshold) hrf) ;;
  let min_hrf := fmul f1e_9 m in
  let min_hrf := if fltb min_hrf hrf_threshold then hrf_threshold else min_hrf in
  let hrf := map (fun v => if feqb v f0 then min_hrf else v) hrf in
  mx <~ py_max hrf ;;
  Ok (map (fun v => fdiv v mx) hrf).

Definition create_hrf (freq : F) : result (list F) :=
  hrf <~ hrf_mixture freq ;;
  hrf_normalise hrf.

Definition endtidal_interpolation (signal : list F) (peaks : list Z)
  : result (list F) :=
  let peaks := np_unique peaks in
  let nx := arangeZ (Z.of_nat (length signal)) in
  y <~ take signal peaks ;;
  interp1d Z.ltb Z.sub of_Z peaks y nx.

(** [np.convolve(a, v, mode='full')] for non-empty 1-D [a] and [v]:
    entry [k] is the sum of [a[i] * v[k - i]]. *)
Definition conv_at (a v : list F) (k : nat) : F :=
  fsum (flat_map
          (fun i => match nth_error a i, nth_error v (k - i) with
                    | Some x, Some y => if (i <=? k)%nat then [fmul x y] else []
                    | _, _ => []
                    end)
          (seq 0 (length a))).
Definition conv_full (a v : list F) : list F :=
  map (conv_at a v) (seq 0 (length a + length v - 1)).

Definition np_convolve (a : ndarray F) (v : list F) (mode : conv_mode)
  : result (list F) :=
  if (1 <? ndim a)%nat then rraise ValueError "object too deep for desired array"
  else
    let a := data a in
    if (length a =? 0)%nat then rraise ValueError "a cannot be empty"
    else if (length v =? 0)%nat then rraise ValueError "v cannot be empty"
    else
      let n1 := Nat.max (length a) (length v) in
      let n2 := Nat.min (length a) (length v) in
      let full := conv_full a v in
      Ok match mode with
         | Full => full
         | Same => firstn n1 (skipn ((n2 - 1) / 2) full)
         | Valid => firstn (n1 - n2 + 1) (skipn (n2 - 1) full)
         end.

(** [np.interp(x, (xp0, xp1), (fp0, fp1))]. *)
Definition np_interp2 (x xp0 xp1 fp0 fp1 : F) : F :=
  if fltb x xp0 then fp0
  else if fltb xp1 x then fp1
  else if feqb x xp1 then fp1
  else if feqb x xp0 then fp0
  else fadd (fmul (fdiv (fsub fp1 fp0) (fsub xp1 xp0)) (fsub x xp0)) fp0.

Definition convolve_signal (signal : ndarray F) (freq : F)
           (response_function : response_function F) (mode : conv_mode)
  : M (ndarray F) :=
  let signal := squeeze signal in
  if (2 <? ndim signal)%nat then
    raise NotImplementedError
      "Convolution on data that has more than 1 dimension is not supported yet."
  else
    (* Check if RF is a string representing a path or a Nonetype *)
    rf <- match response_function with
          | RF_str s =>
              if path_exists s then
                emit (LogDebug "{response_function} is a valid file") ;;;
                ret (RF_path s)
              else if String.eqb (lower s) "none" then ret RF_None
              else ret (RF_str (lower s))
          | other => ret other
          end ;;
    kernel <-
      match rf with
      | RF_list v | RF_ndarray v =>
          match v with
          | Numeric k => ret (Some k)
          | NonNumeric _ =>
              raise ValueError
                "Provided function is not a numeric ndarray-like variable."
          end
      | RF_None =>
          emit (LogInfo "Skipping convolution with response function") ;;;
          ret None
      | RF_str s =>
          if String.eqb s "hrf" then
            k <- lift (create_hrf freq) ;; ret (Some k)
          else if String.eqb s "rrf" then
            match phys2denoise with
            | None =>
                raise ImportError
                  "phys2denoise is required for the use of RRF response functions. Please see install instructions."
            | Some p => dt <- lift (py_div f1 freq) ;; ret (Some (rrf p dt))
            end
          else if String.eqb s "crf" then
            match phys2denoise with
            | None =>
                raise ImportError
                  "phys2denoise is required for the use of CRF response functions. Please see install instructions."
            | Some p => dt <- lift (py_div f1 freq) ;; ret (Some (crf p dt))
            end
          else if String.eqb s "icrf" then
            match phys2denoise with
            | None =>
                raise ImportError
                  "phys2denoise is required for the use of iCRF response functions. Please see install instructions."
            | Some p => dt <- lift (py_div f1 freq) ;; ret (Some (icrf p dt))
            end
          else
            raise NotImplementedError
              "Response function {response_function} is not supported yet or file was not found."
      | RF_path p =>
          if negb (path_exists p) then
            raise OSError "{response_function} not found in system."
          else k <- lift (load_array p) ;; ret (Some k)
      | RF_other =>
          raise NotImplementedError
            "Response function {response_function} is not supported yet or file was not found."
      end ;;
    match kernel with
    | None => ret signal
    | Some convolving_function =>
        c <- lift (np_convolve signal convolving_function mode) ;;
        cmin <- lift (py_min c) ;;
        cmax <- lift (py_max c) ;;
        smin <- lift (py_min (data signal)) ;;
        smax <- lift (py_max (data signal)) ;;
        ret (array1d (map (fun x => np_interp2 x cmin cmax smin smax) c))
    end.

Definition resample_signal_samples (ts : list F) (samples : Z)
  : result (list F) :=
  let len_tp := Z.of_nat (length ts) in
  regr_t <~ linspace f0 (of_Z (len_tp - 1)) samples ;;
  time_t <~ linspace f0 (of_Z (len_tp - 1)) len_tp ;;
  interp1d fltb fsub (fun x => x) time_t ts regr_t.

Definition resample_signal_freqs (ts : list F) (freq1 freq2 : F)
  : result (list F) :=
  let len_tp := Z.of_nat (length ts) in
  len_s <~ py_div (of_Z (len_tp - 1)) freq1 ;;
  n <~ py_int (fmul len_s freq2) ;;
  regr_t <~ linspace f0 len_s (n + 1) ;;
  time_t <~ linspace f0 len_s len_tp ;;
  interp1d fltb fsub (fun x => x) time_t ts regr_t.
End Signal.

(** ** phys2cvr/regressors.py *)

(** [os.path.split] and [os.path.join], for the [regr] output directory. *)
Fixpoint split_path (s : string) : string * string :=
  match s with
  | EmptyString => (EmptyString, EmptyString)
  | String c t =>
      let (h, b) := split_path t in
      if existsb (Ascii.eqb "/"%char) (list_ascii_of_string t)
      then (String c h, b)
      else if Ascii.eqb c "/"%char then (EmptyString, t)
      else (EmptyString, String c t)
  end.
Definition join_path (a b : string) : string :=
  if String.eqb a "" then b else (a ++ "/" ++ b)%string.

Section Regressors.
Context {F : Type} {N : Num F} {W : World F}.

(** [_bonnet(d, x)] at one sample of [x]: the operations on arrays are
    elementwise.  [create_legendre] calls it for [d >= 0] only. *)
Fixpoint _bonnet (d : nat) (x : F) : F :=
  match d with
  | O => f1
  | S d1 =>
      match d1 with
      | O => x
      | S d2 =>
          fdiv (fsub (fmul (fmul (of_Z (2 * Z.of_nat d - 1)) x) (_bonnet d1 x))
                     (fmul (of_Z (Z.of_nat d - 1)) (_bonnet d2 x)))
               (of_Z (Z.of_nat d))
      end
  end.

(** The array is returned as the list of its rows: one row per sample, one
    column per order. *)
Definition create_legendre {P32 : Float32 F} (degree length : Z)
  : result (list (list F)) :=
  x <~ linspace (of_Z (-1)) (of_Z 1) length ;;
  if degree + 1 <? 0 then rraise ValueError "negative dimensions are not allowed"
  else
    Ok (map (fun xi => map (fun n => to_float32 (_bonnet n xi))
                           (seq 0 (Z.to_nat (degree + 1)))) x).

(** Modelled from the spec: [phys2cvr.io.export_regressor], whose module is
    not among the sources.  It demeans and persists a regressor array,
    resampling it to [ntp] samples along the last axis if needed.  One row: *)
Definition export_row (ntp : Z) (row : list F) : result (list F) :=
  r <~ (if Z.of_nat (length row) =? ntp then Ok row
        else resample_signal_samples row ntp) ;;
  Ok (demean r).

(** Modelled from the spec: [export_regressor] on a 1-D array. *)
Definition export_regressor_1d (values : list F) (ntp : Z)
           (outname suffix ext : string) : M (list F) :=
  r <- lift (export_row ntp values) ;;
  emit (SaveTxt (outname ++ "_" ++ suffix ++ ext)%string) ;;;
  ret r.

(** Modelled from the spec: [export_regressor] on a 2-D array, row by row. *)
Definition export_regressor_2d (values : list (list F)) (ntp : Z)
           (outname suffix ext : string) : M (list (list F)) :=
  r <- lift (rmap (export_row ntp) values) ;;
  emit (SaveTxt (outname ++ "_" ++ suffix ++ ext)%string) ;;;
  ret r.

(** The default of the [response_function] parameter of [compute_petco2hrf]. *)
Definition compute_petco2hrf_default_response_function : response_function F :=
  RF_str "hfr".

(** [response_function not in [None, 'none', 'None', 'NONE']]: comparing an
    array of more than one element with the entries has no truth value. *)
Definition rf_not_in_nones (rf : response_function F) : result bool :=
  match rf with
  | RF_None => Ok false
  | RF_str s =>
      Ok (negb (String.eqb s "none" || String.eqb s "None" || String.eqb s "NONE"))
  | RF_ndarray v =>
      if (1 <? kernel_size v)%nat then
        rraise ValueError
          "The truth value of an array with more than one element is ambiguous."
      else Ok true
  | _ => Ok true
  end.

Definition compute_petco2hrf (co2 : ndarray F) (pidx : list Z) (freq : F)
           (outprefix : string) (comp_endtidal : bool)
           (response_function : response_function F) (mode : conv_mode)
  : M (ndarray F) :=
  let co2 := squeeze co2 in
  if (1 <? ndim co2)%nat then
    raise NotImplementedError
      "Arrays with more than 2 dimensions are not supported."
  else
    petco2 <-
      (if comp_endtidal then
         petco2 <- (if (ndim co2 =? 0)%nat then
                      raise IndexError "too many indices for array"
                    else lift (endtidal_interpolation (data co2) pidx)) ;;
         (* Plot PetCO2 vs CO2 *)
         emit (Plot (outprefix ++ "_co2_vs_petco2.png")%string) ;;;
         (* Demean and export *)
         let petco2 := demean petco2 in
         emit (SaveTxt (outprefix ++ "_petco2.1D")%string) ;;;
         ret (array1d petco2)
       else
         emit (LogInfo "Skipping End Tidal interpolation of PetCO2 trace (if you provided raw CO2 data, then you probably should not be doing this)") ;;;
         ret (mk_ndarray (shape co2) (demean (data co2)))) ;;
    (* Plot convolved PetCO2 vs PetCO2 *)
    convolve <- lift (rf_not_in_nones response_function) ;;
    if convolve then
      petco2hrf <- convolve_signal petco2 freq response_function mode ;;
      emit (Plot (outprefix ++ "_petco2_vs_petco2hrf.png")%string) ;;;
      ret petco2hrf
    else
      emit (LogInfo "Skipping convolution of PetCO2 trace") ;;;
      ret petco2.

(** The first block of [compute_bulk_shift]: the first timepoint to match
    from and the number of shifts to search, [(first_tp, n_shifts)]. *)
Definition trial_window (freq : F) (trial_len : option F) (n_trials : option Z)
  : M (Z * option Z) :=
  match trial_len, n_trials, truthy trial_len && truthyZ n_trials with
  | Some tl, Some nt, true =>
      (* If both are specified, disregard two extreme _trial from matching. *)
      emit (LogInfo "Specified {n_trials} trials lasting {trial_len} seconds") ;;;
      first_tp <- (if 3 <? nt then
                     emit (LogInfo "Ignoring first trial to improve bulk shift estimation") ;;;
                     lift (py_int (fmul tl freq))
                   else
                     emit (LogInfo "Using all trials for bulk shift estimation") ;;;
                     ret 0) ;;
      if 4 <? nt then
        emit (LogInfo "Ignoring last trial to improve bulk shift estimation") ;;;
        ret (first_tp, Some (first_tp * (nt - 2)))
      else ret (first_tp, None)
  | _, _, _ =>
      if truthy trial_len && negb (truthyZ n_trials) then
        emit (LogWarning "The length of trial was specified, but the number of trials was not. Using all available trials for bulk shift estimation") ;;;
        ret (0, None)
      else if negb (truthy trial_len) && truthyZ n_trials then
        emit (LogWarning "The number of trials was specified, but the length of trial was not. Using all available trials for bulk shift estimation") ;;;
        ret (0, None)
      else
        emit (LogInfo "Using all trials for bulk shift estimation.") ;;;
        ret (0, None)
  end.

Definition compute_bulk_shift (func_upsampled petco2hrf : list F) (freq : F)
           (outprefix : string) (trial_len : option F) (n_trials : option Z)
           (abs_xcorr : bool) : M Z :=
  w <- trial_window freq trial_len n_trials ;;
  let (first_tp, n_shifts) := w in
  (* Preparing breathhold and CO2 trace for Xcorr *)
  let func_cut := py_slice func_upsampled (Some first_tp) None 1 in
  x <- lift (x_corr func_cut petco2hrf n_shifts first_tp abs_xcorr) ;;
  let '(_, optshift, xcorr) := x in
  _ <- lift (py_div (of_Z optshift) freq) ;;
  emit (LogInfo "Cross correlation estimated a bulk shift of {optshift / freq} seconds") ;;;
  (* Export estimated optimal shift in seconds *)
  _ <- lift (py_div (of_Z optshift) freq) ;;
  emit (SaveTxt (outprefix ++ "_optshift.1D")%string) ;;;
  (* Export xcorr figure *)
  emit (Plot outprefix) ;;;
  (* This shouldn't happen, but still check *)
  if Z.of_nat (length petco2hrf) <? optshift + Z.of_nat (length func_upsampled) then
    raise Exception
      "The identified optimal shift {optshift / freq} removes too many samples to continue."
  else ret optshift.

Definition create_fine_shift_regressors (petco2hrf : list F) (optshift : Z)
           (lag_max lag_min : option F) (freq : F)
           (func_size func_upsamp_size : Z) (outprefix ext : string)
           (legacy : bool) : M (list (list F)) :=
  let (outdir, base) := split_path outprefix in
  let regr_dir := join_path outdir "regr" in
  emit (MakeDirs regr_dir) ;;;
  let outprefix := join_path regr_dir base in
  neg_shifts <- match lag_min with
                | None => raise TypeError "bad operand type for abs(): 'NoneType'"
                | Some l => lift (py_int (fmul (fabs l) freq))
                end ;;
  pos_shifts <- match lag_max with
                | None => raise TypeError "unsupported operand type(s) for *: 'NoneType' and 'float'"
                | Some l =>
                    n <- lift (py_int (fmul l freq)) ;;
                    ret (if legacy then n else n + 1)
                end ;;
  (* Padding regressor right for shifts if not enough timepoints *)
  (* Padding regressor left for shifts and update optshift if less than neg_shifts. *)
  let rpad := Z.max 0 (func_upsamp_size + optshift + pos_shifts
                       - Z.of_nat (length petco2hrf)) in
  let lpad := Z.max 0 (neg_shifts - optshift) in
  emit (Print "lpad = {lpad}") ;;;
  emit (Print "rpad = {rpad}") ;;;
  petco2hrf <- lift (pad_mean petco2hrf lpad rpad) ;;
  (* Create sliding window view into petco2hrf, -1 because of reversed indexing *)
  let neg_idx := optshift - pos_shifts + lpad - 1 in
  let pos_idx := optshift + neg_shifts + lpad - 1 in
  (* select the right windows the other way round *)
  windows <- lift (swv petco2hrf func_upsamp_size) ;;
  let petco2hrf_lagged := py_slice windows (Some pos_idx) (Some neg_idx) (-1) in
  export_regressor_2d petco2hrf_lagged func_size outprefix "shifts" ext.

Definition create_physio_regressor (func_avg petco2hrf : list F) (tr freq : F)
           (outprefix : string) (lag_max lag_min : option F)
           (trial_len : option F) (n_trials : option Z) (ext : string)
           (lagged_regression legacy abs_xcorr skip_xcorr : bool)
  : M (list F * option (list (list F))) :=
  (* Upsample functional signal *)
  inv_tr <- lift (py_div f1 tr) ;;
  func_upsampled <- lift (resample_signal_freqs func_avg inv_tr freq) ;;
  optshift <- (if skip_xcorr then
                 emit (LogInfo "Skipping Bulk Shift Computation") ;;;
                 ret 0
               else
                 compute_bulk_shift func_upsampled petco2hrf freq outprefix
                                    trial_len n_trials abs_xcorr) ;;
  let petco2hrf_shift :=
    py_slice petco2hrf (Some optshift)
             (Some (optshift + Z.of_nat (length func_upsampled))) 1 in
  (* Plot (shifted) regressor vs average ROI signal. *)
  emit (Plot (outprefix ++ "_petco2hrf_vs_avgroi.png")%string) ;;;
  petco2hrf_demean <-
    export_regressor_1d petco2hrf_shift (Z.of_nat (length func_avg))
                        outprefix "petco2hrf_simple" ext ;;
  (* Initialise the shifts first. *)
  if lagged_regression && truthy lag_max then
    petco2hrf_lagged <-
      create_fine_shift_regressors petco2hrf optshift lag_max lag_min freq
        (Z.of_nat (length func_avg)) (Z.of_nat (length func_upsampled))
        outprefix ext legacy ;;
    ret (petco2hrf_demean, Some petco2hrf_lagged)
  else if lagged_regression && negb (truthy lag_max) then
    emit (LogWarning "Lagged regressors requested but maximum lag not provided. Skipping.") ;;;
    ret (petco2hrf_demean, None)
  else
    emit (LogInfo "Skipping generation of lagged regressors.") ;;;
    ret (petco2hrf_demean, None).
End Regressors.

(** ** Statement-side definitions *)




Definition is_warning (e : event) : bool :=
  match e with LogWarning _ => true | _ => false end.

(** ** Fixtures for closed examples *)

Module Fixture.
Definition q (n d : Z) : Qc := Q2Qc (Qmake n (Z.to_pos d)).

(** A world with an empty file system, no optional dependency, a rational
    stand-in for the gamma density that vanishes at 0, and a
    cross-correlation that reports the given shift. *)
Definition world (shift : Z) : World Qc := {|
  path_exists := fun _ => false;
  load_array := fun _ => rraise OSError "no such file";
  phys2denoise := None;
  gamma_pdf := fun (x a b : Qc) => Qcdiv x (Qcplus (Qcmult x x) a);
  x_corr := fun _ _ _ _ _ => Ok (Q2Qc 1, shift, [])
|}.

Definition ramp (n : nat) : list Qc :=
  map (fun i => Q2Qc (inject_Z (Z.of_nat i))) (seq 0 n).

Definition digits : list Qc :=
  map (fun z => Q2Qc (inject_Z z)) [3; 1; 4; 1; 5; 9; 2; 6; 5; 3].

(** The same world in binary64. *)
Definition world64 (shift : Z) : World float := {|
  path_exists := fun _ => false;
  load_array := fun _ => rraise OSError "no such file";
  phys2denoise := None;
  gamma_pdf := fun (x a b : float) =>
                 PrimFloat.div x (PrimFloat.add (PrimFloat.mul x x) a);
  x_corr := fun _ _ _ _ _ => Ok (1%float, shift, [])
|}.
End Fixture.

(** * Properties *)

Unset Implicit Arguments.

(** ** The effect monad *)

Lemma outcome_bind {A B} (m : M A) (k : A -> M B) :
  outcome (bind m k) =
  match outcome m with Ok a => outcome (k a) | Raise e => Raise e end.
Proof.
  destruct m as [tr [a | e]]; simpl; [ | reflexivity ].
  destruct (k a); reflexivity.
Qed.

Lemma events_bind {A B} (m : M A) (k : A -> M B) :
  events (bind m k) =
  events m ++ match outcome m with Ok a => events (k a) | Raise _ => [] end.
Proof.
  destruct m as [tr [a | e]]; simpl.
  - destruct (k a); reflexivity.
  - now rewrite app_nil_r.
Qed.

Lemma outcome_lift {A} (r : result A) : outcome (lift r) = r.
Proof. reflexivity. Qed.

(** Run the part of a computation that is already determined. *)
Ltac run_py :=
  repeat progress
    (rewrite ?outcome_bind, ?outcome_lift;
     cbn [outcome snd emit ret raise lift]).

Lemma rmap_length {A B} (f : A -> result B) (l : list A) (l' : list B) :
  rmap f l = Ok l' -> length l' = length l.
Proof.
  revert l'; induction l as [ | x t IH ]; simpl; intros l' H.
  - now inversion H.
  - destruct (f x); simpl in H; [ | discriminate ].
    destruct (rmap f t); simpl in H; [ | discriminate ].
    inversion H; subst; simpl; f_equal; now apply IH.
Qed.

Lemma rmap_total {A B} (f : A -> result B) (l : list A) :
  (forall x, In x l -> exists y, f x = Ok y) -> exists l', rmap f l = Ok l'.
Proof.
  induction l as [ | x t IH ]; simpl; intros H.
  - now eexists.
  - destruct (H x) as [y Hy]; [ now left | ].
    destruct IH as [l' Hl']; [ intros; apply H; now right | ].
    rewrite Hy, Hl'; simpl; now eexists.
Qed.

Lemma rmap_Forall {A B} (P : B -> Prop) (f : A -> result B) (l : list A) l' :
  (forall x y, In x l -> f x = Ok y -> P y) -> rmap f l = Ok l' -> Forall P l'.
Proof.
  revert l'; induction l as [ | x t IH ]; simpl; intros l' H E.
  - inversion E; constructor.
  - destruct (f x) eqn:Ex; simpl in E; [ | discriminate ].
    destruct (rmap f t) eqn:Et; simpl in E; [ | discriminate ].
    inversion E; subst; constructor; [ eapply H; eauto | ].
    apply IH; [ intros; eapply H; eauto | reflexivity ].
Qed.

(** ** Python slices *)

Lemma adjust_index_bounds len step i :
  0 <= len ->
  (0 < step -> 0 <= adjust_index len step i <= len) /\
  (step < 0 -> -1 <= adjust_index len step i <= len - 1).
Proof.
  intros Hl; unfold adjust_index.
  repeat match goal with
         | |- context [ ?a <? ?b ] => destruct (Z.ltb_spec a b)
         | |- context [ ?a <=? ?b ] => destruct (Z.leb_spec a b)
         end; lia.
Qed.

Lemma slice_bounds len step start stop :
  0 <= len ->
  (0 < step -> 0 <= slice_start len step start <= len /\
               0 <= slice_stop len step stop <= len) /\
  (step < 0 -> -1 <= slice_start len step start <= len - 1 /\
               -1 <= slice_stop len step stop <= len - 1).
Proof.
  intros Hl.
  pose proof (fun i => adjust_index_bounds len step i Hl) as Hb.
  unfold slice_start, slice_stop.
  destruct start as [a | ], stop as [b | ];
    try (pose proof (Hb a)); try (pose proof (Hb b));
    destruct (Z.ltb_spec step 0); split; intros; lia.
Qed.

Lemma flat_map_singletons {A B} (f : A -> list B) (l : list A) :
  (forall x, In x l -> exists y, f x = [y]) ->
  length (flat_map f l) = length l.
Proof.
  induction l as [ | x t IH ]; simpl; intros H; [ reflexivity | ].
  destruct (H x) as [y Hy]; [ now left | ].
  rewrite Hy; simpl; f_equal; apply IH; intros; apply H; now right.
Qed.

Lemma slice_index_in_range len s e step k :
  0 <= len -> step <> 0 ->
  (0 < step -> 0 <= s <= len /\ 0 <= e <= len) ->
  (step < 0 -> -1 <= s <= len - 1 /\ -1 <= e <= len - 1) ->
  0 <= k < slice_length s e step ->
  0 <= s + k * step < len.
Proof.
  intros Hl Hs Hp Hn Hk; unfold slice_length in Hk.
  destruct (Z.ltb_spec step 0) as [Hneg | Hpos].
  - destruct (Hn Hneg) as [Hsb Heb].
    destruct (Z.ltb_spec e s); [ | lia ].
    assert (Hd : - step * ((s - e - 1) / - step) <= s - e - 1)
      by (apply Z.mul_div_le; lia).
    nia.
  - assert (H0 : 0 < step) by lia.
    destruct (Hp H0) as [Hsb Heb].
    destruct (Z.ltb_spec s e); [ | lia ].
    assert (Hd : step * ((e - s - 1) / step) <= e - s - 1)
      by (apply Z.mul_div_le; lia).
    nia.
Qed.

Lemma py_slice_length {A} (l : list A) start stop step :
  step <> 0 ->
  length (py_slice l start stop step) =
  Z.to_nat (slice_length (slice_start (Z.of_nat (length l)) step start)
                         (slice_stop (Z.of_nat (length l)) step stop) step).
Proof.
  intros Hs; unfold py_slice.
  rewrite flat_map_singletons; [ now rewrite length_seq | ].
  intros k Hk; apply in_seq in Hk.
  set (len := Z.of_nat (length l)) in *.
  assert (Hl : 0 <= len) by (subst len; lia).
  destruct (slice_bounds len step start stop Hl) as [Hp Hn].
  pose proof (slice_index_in_range len _ _ step (Z.of_nat k) Hl Hs Hp Hn) as Hr.
  destruct (nth_error l (Z.to_nat (slice_start len step start + Z.of_nat k * step)))
    as [x | ] eqn:E; [ now exists x | ].
  apply nth_error_None in E; subst len; lia.
Qed.

Lemma py_slice_incl {A} (l : list A) start stop step :
  incl (py_slice l start stop step) l.
Proof.
  unfold py_slice; intros x Hx; apply in_flat_map in Hx.
  destruct Hx as [k [_ Hk]].
  destruct (nth_error l _) as [y | ] eqn:E; [ | contradiction ].
  destruct Hk as [<- | []]; eapply nth_error_In; eauto.
Qed.

Lemma skipn_cons_nth_error {A} (l : list A) s x :
  nth_error l s = Some x -> skipn s l = x :: skipn (S s) l.
Proof.
  revert s; induction l as [ | y t IH ]; intros [ | s ] H; simpl in *;
    try discriminate.
  - now inversion H.
  - now apply IH.
Qed.

Lemma flat_map_nth_error_range {A} (l : list A) n s :
  (s + n <= length l)%nat ->
  flat_map (fun k => opt_list (nth_error l (s + k))) (seq 0 n) =
  firstn n (skipn s l).
Proof.
  revert s; induction n as [ | n IH ]; intros s H; [ reflexivity | ].
  simpl seq; rewrite <- seq_shift; simpl flat_map.
  rewrite flat_map_concat_map, map_map, <- flat_map_concat_map.
  destruct (nth_error l (s + 0)) as [x | ] eqn:E;
    [ | apply nth_error_None in E; lia ].
  rewrite Nat.add_0_r in E.
  rewrite (skipn_cons_nth_error l s x E), firstn_cons.
  cbn [opt_list app]; f_equal.
  rewrite <- (IH (S s)) by lia.
  apply flat_map_ext; intros k; now rewrite Nat.add_succ_r.
Qed.

(** A slice with step 1 is a [firstn] of a [skipn]. *)
Lemma py_slice_step1 {A} (l : list A) start stop :
  let s := slice_start (Z.of_nat (length l)) 1 start in
  let e := slice_stop (Z.of_nat (length l)) 1 stop in
  py_slice l start stop 1 = firstn (Z.to_nat (e - s)) (skipn (Z.to_nat s) l).
Proof.
  intros s e; unfold py_slice; fold s; fold e.
  destruct (slice_bounds (Z.of_nat (length l)) 1 start stop) as [Hp _]; [ lia | ].
  destruct Hp as [Hs He]; [ lia | ]; fold s in Hs; fold e in He.
  unfold slice_length; change (1 <? 0) with false; cbv iota.
  destruct (Z.ltb_spec s e) as [Hlt | Hge].
  - rewrite Z.div_1_r.
    replace (Z.to_nat (e - s - 1 + 1)) with (Z.to_nat (e - s)) by lia.
    rewrite <- flat_map_nth_error_range by lia.
    apply flat_map_ext; intros k; unfold opt_list.
    now replace (Z.to_nat (s + Z.of_nat k * 1)) with (Z.to_nat s + k)%nat by lia.
  - replace (Z.to_nat (e - s)) with 0%nat by lia; reflexivity.
Qed.

(** [l[0:]] is the whole of [l]. *)
Lemma py_slice_whole {A} (l : list A) : py_slice l (Some 0) None 1 = l.
Proof.
  rewrite py_slice_step1; unfold slice_start, slice_stop, adjust_index; simpl.
  destruct (Z.leb_spec (Z.of_nat (length l)) 0) as [H0 | H0].
  - destruct l; [ reflexivity | simpl in H0; lia ].
  - rewrite Z.sub_0_r, Nat2Z.id; simpl; apply firstn_all.
Qed.

(** [l[0:n]] is the first [n] items of [l]. *)
Lemma py_slice_prefix {A} (l : list A) n :
  0 <= n -> py_slice l (Some 0) (Some n) 1 = firstn (Z.to_nat n) l.
Proof.
  intros Hn; rewrite py_slice_step1.
  unfold slice_start, slice_stop, adjust_index; simpl.
  destruct (Z.ltb_spec n 0); [ lia | ].
  destruct (Z.leb_spec (Z.of_nat (length l)) 0) as [H0 | H0].
  - destruct l; [ simpl; now rewrite !firstn_nil | simpl in H0; lia ].
  - destruct (Z.leb_spec (Z.of_nat (length l)) n) as [H1 | H1]; simpl.
    + rewrite Z.sub_0_r, Nat2Z.id, firstn_all.
      symmetry; apply firstn_all2; lia.
    + now rewrite Z.sub_0_r.
Qed.

(** ** Indexing *)

Lemma py_index_ok {A} (l : list A) i :
  - Z.of_nat (length l) <= i < Z.of_nat (length l) ->
  exists x, py_index l i = Ok x.
Proof.
  intros H; unfold py_index.
  set (j := if i <? 0 then i + Z.of_nat (length l) else i).
  assert (Hj : 0 <= j < Z.of_nat (length l))
    by (subst j; destruct (Z.ltb_spec i 0); lia).
  destruct (Z.ltb_spec j 0); [ lia | ].
  destruct (Z.leb_spec (Z.of_nat (length l)) j); [ lia | ]; simpl.
  destruct (nth_error l (Z.to_nat j)) as [x | ] eqn:E; [ now exists x | ].
  apply nth_error_None in E; lia.
Qed.

Lemma py_index_nonneg {A} (l : list A) i x :
  0 <= i -> py_index l i = Ok x <-> nth_error l (Z.to_nat i) = Some x.
Proof.
  intros Hi; unfold py_index.
  destruct (Z.ltb_spec i 0); [ lia | ].
  destruct (Z.ltb_spec i 0); [ lia | ]; simpl.
  destruct (Z.leb_spec (Z.of_nat (length l)) i) as [Hl | Hl]; simpl.
  - split; [ discriminate | ].
    intros E; assert (nth_error l (Z.to_nat i) <> None) by congruence.
    apply nth_error_Some in H1; lia.
  - destruct (nth_error l (Z.to_nat i)); split; intros E;
      inversion E; subst; reflexivity || discriminate.
Qed.

(** ** NumPy and SciPy primitives *)

Section NumPyFacts.
Context {F : Type} {N : Num F}.

Lemma arangeZ_length n : length (arangeZ n) = Z.to_nat n.
Proof. unfold arangeZ; now rewrite length_map, length_seq. Qed.

Lemma py_int_finite (x : F) : ffinite x = true -> py_int x = Ok (ftrunc x).
Proof.
  unfold ffinite, py_int; intros H; apply negb_true_iff, orb_false_iff in H.
  destruct H as [-> ->]; reflexivity.
Qed.

Lemma demean_length (l : list F) : length (demean l) = length l.
Proof. unfold demean; apply length_map. Qed.

Lemma linspace_ok (a b : F) num :
  0 <= num ->
  exists l, linspace a b num = Ok l /\ length l = Z.to_nat num.
Proof.
  intros Hn; unfold linspace.
  destruct (Z.ltb_spec num 0); [ lia | ].
  eexists; split; [ reflexivity | ].
  match goal with
  | |- context [ map (fun v => fadd v a) ?y ] =>
      assert (Hy : length (map (fun v => fadd v a) y) = Z.to_nat num)
  end.
  { rewrite length_map.
    destruct (0 <? num - 1); [ destruct (feqb _ _) | ];
      now rewrite length_map, length_map, arangeZ_length. }
  destruct (Z.ltb_spec 1 num); [ | exact Hy ].
  rewrite length_app, removelast_firstn_len, length_firstn, Hy; simpl; lia.
Qed.

Lemma pad_mean_length (x : list F) l r p :
  pad_mean x l r = Ok p ->
  length p = (Z.to_nat l + length x + Z.to_nat r)%nat.
Proof.
  unfold pad_mean; destruct (_ && _); [ discriminate | ].
  intros E; inversion E; subst.
  rewrite !length_app, !repeat_length; lia.
Qed.

Lemma pad_mean_ok (x : list F) l r :
  x <> [] -> exists p, pad_mean x l r = Ok p.
Proof.
  intros Hx; unfold pad_mean; destruct x; [ congruence | ].
  simpl; now eexists.
Qed.

Lemma swv_ok (x : list F) w :
  0 <= w <= Z.of_nat (length x) ->
  exists ws, swv x w = Ok ws /\
             length ws = (length x - Z.to_nat w + 1)%nat /\
             Forall (fun r => length r = Z.to_nat w) ws.
Proof.
  intros Hw; unfold swv.
  destruct (Z.ltb_spec w 0); [ lia | ].
  destruct (Z.ltb_spec (Z.of_nat (length x)) w); [ lia | ].
  eexists; split; [ reflexivity | split ].
  - now rewrite length_map, length_seq.
  - apply Forall_forall; intros r Hr; apply in_map_iff in Hr.
    destruct Hr as [i [<- Hi]]; apply in_seq in Hi.
    rewrite length_firstn, length_skipn; lia.
Qed.
End NumPyFacts.

Section Interp1dFacts.
Context {F : Type} {N : Num F} {X : Type}.
Variables (xltb : X -> X -> bool) (xsub : X -> X -> X) (toF : X -> F).

Lemma insert_xy_length (p : X * F) (l : list (X * F)) :
  length (insert_xy xltb p l) = S (length l).
Proof.
  induction l as [ | q t IH ]; simpl; [ reflexivity | ].
  destruct (xltb (fst p) (fst q)); simpl; now rewrite ?IH.
Qed.

Lemma sort_xy_length (l : list (X * F)) : length (sort_xy xltb l) = length l.
Proof.
  induction l as [ | p t IH ]; simpl; [ reflexivity | ].
  now rewrite insert_xy_length, IH.
Qed.

Lemma call_linear_total (pts : list (X * F)) x_new :
  pts <> [] -> exists y, call_linear xltb xsub toF pts x_new = Ok y.
Proof.
  intros Hp; unfold call_linear.
  set (n := Z.of_nat (length (map fst pts))).
  set (i := clip _ 1 (n - 1)).
  assert (Hn : 1 <= n)
    by (subst n; rewrite length_map; destruct pts; [ congruence | simpl; lia ]).
  assert (Hi : (n = 1 /\ i = 0) \/ 1 <= i <= n - 1)
    by (subst i; unfold clip; lia).
  assert (Hys : Z.of_nat (length (map snd pts)) = n)
    by (subst n; now rewrite !length_map).
  destruct (py_index_ok (map fst pts) (i - 1)) as [x_lo ->]; [ fold n; lia | ].
  destruct (py_index_ok (map fst pts) i) as [x_hi ->]; [ fold n; lia | ].
  destruct (py_index_ok (map snd pts) (i - 1)) as [y_lo ->]; [ rewrite Hys; lia | ].
  destruct (py_index_ok (map snd pts) i) as [y_hi ->]; [ rewrite Hys; lia | ].
  simpl; now eexists.
Qed.

Lemma interp1d_ok (x : list X) (y : list F) (x_new : list X) :
  length x = length y -> x <> [] ->
  exists r, interp1d xltb xsub toF x y x_new = Ok r /\
            length r = length x_new.
Proof.
  intros Hl Hx; unfold interp1d.
  rewrite Hl, Nat.eqb_refl; simpl.
  destruct y as [ | y0 y ]; [ destruct x; [ congruence | discriminate ] | ].
  simpl (length _ =? 0)%nat; cbv iota.
  destruct (rmap_total (call_linear xltb xsub toF (sort_xy xltb (combine x (y0 :: y)))) x_new)
    as [r Hr].
  - intros v _; apply call_linear_total.
    intros E; apply (f_equal (@length _)) in E.
    rewrite sort_xy_length, length_combine, Hl, Nat.min_id in E; discriminate.
  - exists r; split; [ exact Hr | eapply rmap_length; eauto ].
Qed.
End Interp1dFacts.

Section ResampleFacts.
Context {F : Type} {N : Num F}.

Lemma resample_signal_samples_ok (ts : list F) samples :
  ts <> [] -> 0 <= samples ->
  exists r, resample_signal_samples ts samples = Ok r /\
            length r = Z.to_nat samples.
Proof.
  intros Hts Hs; unfold resample_signal_samples.
  destruct (linspace_ok f0 (of_Z (Z.of_nat (length ts) - 1)) samples Hs)
    as [regr_t [-> Hr]].
  destruct (linspace_ok f0 (of_Z (Z.of_nat (length ts) - 1))
                        (Z.of_nat (length ts))) as [time_t [-> Ht]]; [ lia | ].
  simpl.
  destruct (interp1d_ok fltb fsub (fun x => x) time_t ts regr_t) as [r [-> Hl]].
  - rewrite Ht; lia.
  - intros ->; simpl in Ht; destruct ts; [ congruence | simpl in Ht; lia ].
  - exists r; split; [ reflexivity | congruence ].
Qed.

Lemma export_row_ok ntp (row : list F) :
  row <> [] -> 0 <= ntp ->
  exists r, export_row ntp row = Ok r /\ Z.of_nat (length r) = ntp.
Proof.
  intros Hr Hn; unfold export_row.
  destruct (Z.eqb_spec (Z.of_nat (length row)) ntp) as [E | E]; simpl.
  - eexists; split; [ reflexivity | now rewrite demean_length ].
  - destruct (resample_signal_samples_ok row ntp Hr Hn) as [r [-> Hl]]; simpl.
    eexists; split; [ reflexivity | rewrite demean_length; lia ].
Qed.
End ResampleFacts.

(** ** The lag bank: [create_fine_shift_regressors] *)

Section LagBank.
Context {F : Type} {N : Num F}.

Lemma export_regressor_2d_ok (rows : list (list F)) ntp outname suffix ext w :
  0 < w -> 0 <= ntp ->
  Forall (fun r => length r = Z.to_nat w) rows ->
  exists out,
    outcome (export_regressor_2d rows ntp outname suffix ext) = Ok out /\
    length out = length rows /\
    Forall (fun r => Z.of_nat (length r) = ntp) out.
Proof.
  intros Hw Hn Hrows; unfold export_regressor_2d.
  destruct (rmap_total (export_row ntp) rows) as [out Hout].
  { intros r Hr; rewrite Forall_forall in Hrows.
    destruct (export_row_ok ntp r) as [y [Hy _]]; [ | exact Hn | eauto ].
    intros ->; specialize (Hrows [] Hr); simpl in Hrows; lia. }
  exists out; rewrite Hout; simpl; split; [ reflexivity | split ].
  - eapply rmap_length; eauto.
  - eapply rmap_Forall; [ | exact Hout ].
    intros r y Hr Hy; rewrite Forall_forall in Hrows.
    destruct (export_row_ok ntp r) as [y' [Hy' Hl]]; [ | exact Hn | congruence ].
    intros ->; specialize (Hrows [] Hr); simpl in Hrows; lia.
Qed.

(** The reversed window selection, when both bounds are indices. *)
Lemma reversed_slice_length {A} (l : list A) pos_idx neg_idx :
  0 <= neg_idx <= pos_idx -> pos_idx < Z.of_nat (length l) ->
  Z.of_nat (length (py_slice l (Some pos_idx) (Some neg_idx) (-1))) =
  pos_idx - neg_idx.
Proof.
  intros H1 H2; rewrite py_slice_length by lia.
  unfold slice_start, slice_stop, adjust_index, slice_length.
  change (-1 <? 0) with true; cbv iota.
  destruct (Z.ltb_spec pos_idx 0); [ lia | ].
  destruct (Z.ltb_spec neg_idx 0); [ lia | ].
  destruct (Z.leb_spec (Z.of_nat (length l)) pos_idx); [ lia | ].
  destruct (Z.leb_spec (Z.of_nat (length l)) neg_idx); [ lia | ].
  change (- -1) with 1; rewrite Z.div_1_r.
  destruct (Z.ltb_spec neg_idx pos_idx); lia.
Qed.

(** A negative stop counts from the end: below the start nothing is left. *)
Lemma reversed_slice_wraps {A} (l : list A) pos_idx neg_idx :
  neg_idx < 0 -> 0 <= pos_idx <= Z.of_nat (length l) + neg_idx ->
  py_slice l (Some pos_idx) (Some neg_idx) (-1) = [].
Proof.
  intros H1 H2; apply length_zero_iff_nil.
  rewrite py_slice_length by lia.
  unfold slice_start, slice_stop, adjust_index, slice_length.
  change (-1 <? 0) with true; cbv iota.
  destruct (Z.ltb_spec pos_idx 0); [ lia | ].
  destruct (Z.ltb_spec neg_idx 0); [ | lia ].
  destruct (Z.leb_spec (Z.of_nat (length l)) pos_idx); [ lia | ].
  destruct (Z.ltb_spec (neg_idx + Z.of_nat (length l)) 0); [ lia | ].
  destruct (Z.ltb_spec (neg_idx + Z.of_nat (length l)) pos_idx); lia.
Qed.
End LagBank.

(** C1 (amended): with symmetric lag bounds ([|lag_min| = lag_max]) and a bulk
    shift above the number of positive shifts, the lag bank has exactly
    [2 * int(lag_max * freq)] rows in legacy mode and one more otherwise, and
    every exported row has [func_size] samples. *)
Theorem lag_bank_row_count {F : Type} {N : Num F}
        (petco2hrf : list F) (optshift : Z) (lag_max lag_min freq : F)
        (func_size func_upsamp_size : Z) (outprefix ext : string)
        (legacy : bool) :
  let n := ftrunc (fmul lag_max freq) in
  ffinite (fmul lag_max freq) = true ->
  fabs lag_min = lag_max ->
  0 <= n ->
  (if legacy then n else n + 1) < optshift ->
  petco2hrf <> [] ->
  0 < func_upsamp_size ->
  0 <= func_size ->
  exists bank,
    outcome (create_fine_shift_regressors petco2hrf optshift (Some lag_max)
               (Some lag_min) freq func_size func_upsamp_size outprefix ext
               legacy) = Ok bank /\
    Z.of_nat (length bank) = (if legacy then 2 * n else 2 * n + 1) /\
    Forall (fun row => Z.of_nat (length row) = func_size) bank.
Proof.
  intros n Hfin Habs Hn Hshift Hne Hw Hsize.
  unfold create_fine_shift_regressors.
  destruct (split_path outprefix) as [outdir base].
  rewrite Habs, (py_int_finite _ Hfin); fold n.
  set (pos_shifts := if legacy then n else n + 1) in *.
  assert (Hpos : n <= pos_shifts) by (subst pos_shifts; destruct legacy; lia).
  run_py.
  replace (Z.max 0 (n - optshift)) with 0 by lia.
  set (rpad := Z.max 0 _).
  destruct (pad_mean_ok petco2hrf 0 rpad Hne) as [padded Hp]; rewrite Hp.
  pose proof (pad_mean_length petco2hrf 0 rpad padded Hp) as Hlen.
  run_py.
  destruct (swv_ok padded func_upsamp_size) as [ws [Hws [Hcount Hrows]]];
    [ subst rpad; lia | rewrite Hws ].
  set (pos_idx := optshift + n + 0 - 1).
  set (neg_idx := optshift - pos_shifts + 0 - 1).
  assert (Hsl : Z.of_nat (length (py_slice ws (Some pos_idx) (Some neg_idx) (-1)))
                = pos_idx - neg_idx)
    by (apply reversed_slice_length; subst pos_idx neg_idx rpad; lia).
  destruct (export_regressor_2d_ok
              (py_slice ws (Some pos_idx) (Some neg_idx) (-1)) func_size
              (join_path (join_path outdir "regr") base) "shifts" ext
              func_upsamp_size Hw Hsize) as [bank [Hb [Hbl Hbr]]].
  { rewrite Forall_forall in *; intros r Hr; apply Hrows.
    eapply py_slice_incl; eauto. }
  exists bank; split; [ exact Hb | split; [ | exact Hbr ] ].
  rewrite Hbl, Hsl; subst pos_idx neg_idx pos_shifts; destruct legacy; lia.
Qed.

Lemma lag_bank_row_count_witness :
  exists bank,
    outcome (create_fine_shift_regressors (Fixture.ramp 10) 3
               (Some (Fixture.q 1 1)) (Some (Fixture.q (-1) 1)) (Fixture.q 1 1)
               2 3 "out/sub" ".1D" false) = Ok bank /\
    Z.of_nat (length bank) = 3 /\
    Forall (fun row => Z.of_nat (length row) = 2) bank.
Proof.
  refine (lag_bank_row_count (Fixture.ramp 10) 3 (Fixture.q 1 1)
            (Fixture.q (-1) 1) (Fixture.q 1 1) 2 3 "out/sub" ".1D" false
            _ _ _ _ _ _ _).
  - reflexivity.
  - reflexivity.
  - vm_compute; discriminate.
  - vm_compute; reflexivity.
  - discriminate.
  - lia.
  - lia.
Defined.

(** C1 (as stated) fails: with [lag_max = 3.5] s at [freq = 0.5] Hz the code
    counts [int(1.75) = 1] shift on each side, not [round(1.75) = 2]; the
    legacy bank has 2 rows where the statement promises 4. *)
Lemma lag_bank_rows_truncated :
  exists bank,
    outcome (create_fine_shift_regressors (Fixture.ramp 30) 10
               (Some (Fixture.q 7 2)) (Some (Fixture.q (-7) 2)) (Fixture.q 1 2)
               3 5 "out/sub" ".1D" true) = Ok bank /\
    Z.of_nat (length bank) = 2 /\
    2 * round_nearest (fmul (Fixture.q 7 2) (Fixture.q 1 2)) = 4.
Proof.
  eexists; split; [ vm_compute; reflexivity | split; reflexivity ].
Qed.

(** X9: the reversed selection [windows[pos_idx:neg_idx:-1]] takes a negative
    [neg_idx] as a position from the end: with symmetric lag bounds and a bulk
    shift between 0 and [int(lag_max * freq)] samples,
    [create_fine_shift_regressors] returns an empty lag bank. *)
Lemma lag_bank_empty_for_small_shift {F : Type} {N : Num F}
      (petco2hrf : list F) (optshift : Z) (lag_max lag_min freq : F)
      (func_size func_upsamp_size : Z) (outprefix ext : string)
      (legacy : bool) :
  let n := ftrunc (fmul lag_max freq) in
  ffinite (fmul lag_max freq) = true ->
  fabs lag_min = lag_max ->
  1 <= n ->
  0 <= optshift <= n ->
  petco2hrf <> [] ->
  0 < func_upsamp_size ->
  outcome (create_fine_shift_regressors petco2hrf optshift (Some lag_max)
             (Some lag_min) freq func_size func_upsamp_size outprefix ext
             legacy) = Ok [].
Proof.
  intros n Hfin Habs Hn Hshift Hne Hw.
  unfold create_fine_shift_regressors.
  destruct (split_path outprefix) as [outdir base].
  rewrite Habs, (py_int_finite _ Hfin); fold n.
  set (pos_shifts := if legacy then n else n + 1) in *.
  assert (Hpos : n <= pos_shifts <= n + 1)
    by (subst pos_shifts; destruct legacy; lia).
  run_py.
  replace (Z.max 0 (n - optshift)) with (n - optshift) by lia.
  set (rpad := Z.max 0 _).
  destruct (pad_mean_ok petco2hrf (n - optshift) rpad Hne) as [padded Hp].
  rewrite Hp.
  pose proof (pad_mean_length petco2hrf (n - optshift) rpad padded Hp) as Hlen.
  run_py.
  destruct (swv_ok padded func_upsamp_size) as [ws [Hws [Hcount Hrows]]];
    [ subst rpad; lia | rewrite Hws ].
  rewrite reversed_slice_wraps by (subst rpad; lia).
  reflexivity.
Qed.

(** In the pipeline: with [skip_xcorr] the bulk shift is 0 and the lag bank
    asked for with [lag_max = 1], [lag_min = -1] at 2 Hz comes out empty. *)
Example create_physio_regressor_empty_bank :
  exists d,
    outcome (create_physio_regressor (W := Fixture.world 0) (Fixture.ramp 4)
               (Fixture.ramp 40) (Fixture.q 1 1) (Fixture.q 2 1) "out/sub"
               (Some (Fixture.q 1 1)) (Some (Fixture.q (-1) 1)) None None ".1D"
               true false false true)
    = Ok (d, Some []).
Proof. eexists; vm_compute; reflexivity. Qed.

(** ** The two arithmetics *)

Lemma Qc_nonneg_num (x : Qc) :
  fltb x (of_Z 0) = false -> 0 <= Qnum x.
Proof.
  simpl; intros H; apply negb_false_iff, Qle_bool_iff in H.
  unfold Qle in H; simpl in H; lia.
Qed.

#[export] Instance TruncFloor_Qc : TruncFloor Num_Qc.
Proof.
  split; intros x H; apply Qc_nonneg_num in H; simpl; unfold Qc_trunc, Qc_floor.
  - apply Z.quot_div_nonneg; lia.
  - apply Z.quot_pos; lia.
Qed.

Lemma float_nonneg_sign (x : float) m e :
  fltb x (of_Z 0) = false -> Prim2SF x <> S754_finite true m e.
Proof.
  simpl; intros H E; rewrite ltb_spec, E in H; discriminate.
Qed.

#[export] Instance TruncFloor_float : TruncFloor Num_float.
Proof.
  split; intros x H; simpl; unfold float_trunc, float_floor, float_to_Z;
    pose proof (float_nonneg_sign x) as Hs;
    destruct (Prim2SF x) as [ s0 | s0 | | s m e ]; try reflexivity; try lia;
    (destruct s; [ exfalso; apply (Hs m e H); reflexivity | cbv beta iota zeta ]).
  - destruct (Z.leb_spec 0 e); [ reflexivity | ].
    apply Z.quot_div_nonneg; [ lia | apply Z.pow_pos_nonneg; lia ].
  - destruct (Z.leb_spec 0 e).
    + apply Z.mul_nonneg_nonneg; [ lia | apply Z.pow_nonneg; lia ].
    + apply Z.quot_pos; [ lia | apply Z.pow_pos_nonneg; lia ].
Qed.

(** ** The resampler *)

(** The sample count as the code computes it. *)
Lemma resample_signal_freqs_ok {F : Type} {N : Num F}
      (ts : list F) (freq1 freq2 : F) :
  let x := fmul (fdiv (of_Z (Z.of_nat (length ts) - 1)) freq1) freq2 in
  let n := ftrunc x in
  ts <> [] ->
  feqb freq1 f0 = false ->
  ffinite x = true ->
  0 <= n + 1 ->
  exists r,
    resample_signal_freqs ts freq1 freq2 = Ok r /\ Z.of_nat (length r) = n + 1.
Proof.
  intros x n Hts Hf1 Hfin Hn; subst n x; unfold resample_signal_freqs, py_div.
  rewrite Hf1; cbn [rbind].
  set (L := Z.of_nat (length ts)) in *.
  set (len_s := fdiv (of_Z (L - 1)) freq1) in *.
  rewrite (py_int_finite _ Hfin); cbn [rbind].
  destruct (linspace_ok f0 len_s _ Hn) as [regr_t [-> Hr]].
  destruct (linspace_ok f0 len_s L) as [time_t [-> Ht]]; [ subst L; lia | ].
  cbn [rbind].
  destruct (interp1d_ok fltb fsub (fun x => x) time_t ts regr_t) as [r [-> Hl]].
  - rewrite Ht; subst L; lia.
  - intros ->; destruct ts; [ congruence | simpl in Ht; subst L; simpl in Ht; lia ].
  - exists r; split; [ reflexivity | rewrite Hl, Hr; lia ].
Qed.

(** C2: resampling a non-empty series from [freq1] to [freq2] yields exactly
    [floor((L - 1) / freq1 * freq2) + 1] samples, for a non-zero [freq1] and a
    duration-frequency product that is not negative. *)
Theorem resample_signal_freqs_sample_count
        {F : Type} {N : Num F} {T : TruncFloor N}
        (ts : list F) (freq1 freq2 : F) :
  let L := Z.of_nat (length ts) in
  ts <> [] ->
  feqb freq1 f0 = false ->
  ffinite (fmul (fdiv (of_Z (L - 1)) freq1) freq2) = true ->
  fltb (fmul (fdiv (of_Z (L - 1)) freq1) freq2) f0 = false ->
  exists r,
    resample_signal_freqs ts freq1 freq2 = Ok r /\
    Z.of_nat (length r) = ffloor (fmul (fdiv (of_Z (L - 1)) freq1) freq2) + 1.
Proof.
  intros L Hts Hf1 Hfin Hx.
  pose proof (ftrunc_floor _ Hx) as Hfl.
  pose proof (ftrunc_nonneg _ Hx) as Hnn.
  destruct (resample_signal_freqs_ok ts freq1 freq2 Hts Hf1 Hfin)
    as [r [Hr Hl]]; [ fold L; lia | ].
  exists r; split; [ exact Hr | ].
  fold L in Hl; rewrite Hl, Hfl; reflexivity.
Qed.

Lemma resample_signal_freqs_sample_count_witness :
  exists r,
    resample_signal_freqs (Fixture.ramp 10) (Fixture.q 1 1) (Fixture.q 5 2) = Ok r /\
    Z.of_nat (length r) = 23.
Proof.
  refine (resample_signal_freqs_sample_count (Fixture.ramp 10) (Fixture.q 1 1)
            (Fixture.q 5 2) _ _ _ _).
  - discriminate.
  - reflexivity.
  - reflexivity.
  - reflexivity.
Defined.

(** The same count in binary64: 10 samples at 1.5 s repetition time, brought
    to 40 Hz, give [int(9 / (1 / 1.5) * 40) + 1 = 541] samples. *)
Example resample_signal_freqs_binary64 :
  exists r,
    resample_signal_freqs (map float_of_Z [3; 1; 4; 1; 5; 9; 2; 6; 5; 3])
      (PrimFloat.div 1 0x1.8p+0) 40%float = Ok r /\
    length r = 541%nat.
Proof.
  destruct (resample_signal_freqs_ok
              (map float_of_Z [3; 1; 4; 1; 5; 9; 2; 6; 5; 3])
              (PrimFloat.div 1 0x1.8p+0) 40%float) as [r [Hr Hl]];
    [ discriminate | reflexivity | reflexivity | vm_compute; discriminate | ].
  exists r; split; [ exact Hr | ].
  apply Nat2Z.inj; rewrite Hl; reflexivity.
Qed.

(** ** The lag estimator: [compute_bulk_shift] *)

Section BulkShift.
Context {F : Type} {N : Num F}.

Ltac trial_cases :=
  repeat match goal with
         | H : context [ feqb ?a ?b ] |- _ => destruct (feqb a b); simpl in *
         | H : context [ ?a =? ?b ] |- _ => destruct (a =? b); simpl in *
         | |- context [ feqb ?a ?b ] => destruct (feqb a b); simpl in *
         | |- context [ ?a =? ?b ] => destruct (a =? b); simpl in *
         end.

(** What [compute_bulk_shift] does after its first block, when that block
    has chosen [(first_tp, n_shifts)]: the cut, the limit and the offset are
    what [x_corr] receives, and no warning is logged afterwards. *)
Lemma compute_bulk_shift_after_window {W : World F} fu p (freq : F) out tl nt a
      first_tp n_shifts :
  outcome (trial_window freq tl nt) = Ok (first_tp, n_shifts) ->
  outcome (compute_bulk_shift fu p freq out tl nt a) =
  match x_corr (py_slice fu (Some first_tp) None 1) p n_shifts first_tp a with
  | Raise e => Raise e
  | Ok (_, optshift, _) =>
      if feqb freq f0 then rraise ZeroDivisionError "division by zero"
      else if Z.of_nat (length p) <? optshift + Z.of_nat (length fu) then
        rraise Exception
          "The identified optimal shift {optshift / freq} removes too many samples to continue."
      else Ok optshift
  end /\
  existsb is_warning (events (compute_bulk_shift fu p freq out tl nt a)) =
  existsb is_warning (events (trial_window freq tl nt)).
Proof.
  intros Hw; unfold compute_bulk_shift.
  rewrite outcome_bind, events_bind, Hw, existsb_app.
  run_py.
  destruct (x_corr (py_slice fu (Some first_tp) None 1) p n_shifts first_tp a)
    as [ [[c optshift] xcorr] | e ].
  - unfold py_div; destruct (feqb freq f0); cbn;
      [ split; [ reflexivity | apply orb_false_r ] | ].
    destruct (_ <? _); cbn; (split; [ reflexivity | apply orb_false_r ]).
  - cbn; split; [ reflexivity | apply orb_false_r ].
Qed.

(** C4: trial-aware windowing.  [compute_bulk_shift] hands to the
    cross-correlation the signal from [first_tp] on, the limit [n_shifts] on
    the shifts and the offset [first_tp], and continues with what it returns.
    With both a trial length and a trial count given (not [None], not zero),
    [first_tp] is [int(trial_len * freq)] exactly when [n_trials > 3] (0
    otherwise), and the shifts are limited to [first_tp * (n_trials - 2)]
    exactly when [n_trials > 4] (no limit otherwise).  With only one of them
    given a warning is logged and the whole signal is matched ([first_tp = 0],
    no limit); with neither, the whole signal is matched and no warning is
    logged.  [func_upsampled[0:]] is the whole signal. *)
Theorem trial_window_policy (W : World F) (func_upsampled petco2hrf : list F)
        (freq : F) (outprefix : string) (trial_len : option F)
        (n_trials : option Z) (abs_xcorr : bool) :
  let run := compute_bulk_shift func_upsampled petco2hrf freq outprefix
                                trial_len n_trials abs_xcorr in
  let matched first_tp n_shifts :=
    match x_corr (py_slice func_upsampled (Some first_tp) None 1) petco2hrf
                 n_shifts first_tp abs_xcorr with
    | Raise e => Raise e
    | Ok (_, optshift, _) =>
        if feqb freq f0 then rraise ZeroDivisionError "division by zero"
        else if Z.of_nat (length petco2hrf)
                <? optshift + Z.of_nat (length func_upsampled) then
          rraise Exception
            "The identified optimal shift {optshift / freq} removes too many samples to continue."
        else Ok optshift
    end in
  (forall tl nt, trial_len = Some tl -> n_trials = Some nt ->
     feqb tl f0 = false -> nt <> 0 ->
     (3 < nt -> ffinite (fmul tl freq) = true) ->
     let first_tp := if 3 <? nt then ftrunc (fmul tl freq) else 0 in
     let n_shifts := if 4 <? nt then Some (first_tp * (nt - 2)) else None in
     outcome (trial_window freq trial_len n_trials) = Ok (first_tp, n_shifts) /\
     outcome run = matched first_tp n_shifts /\
     existsb is_warning (events run) = false) /\
  (truthy trial_len <> truthyZ n_trials ->
     outcome (trial_window freq trial_len n_trials) = Ok (0, None) /\
     outcome run = matched 0 None /\
     existsb is_warning (events run) = true) /\
  (truthy trial_len = false -> truthyZ n_trials = false ->
     outcome (trial_window freq trial_len n_trials) = Ok (0, None) /\
     outcome run = matched 0 None /\
     existsb is_warning (events run) = false) /\
  py_slice func_upsampled (Some 0) None 1 = func_upsampled.
Proof.
  intros run matched; subst run matched; cbv beta.
  assert (Hrun : forall first_tp n_shifts b,
             outcome (trial_window freq trial_len n_trials) = Ok (first_tp, n_shifts) ->
             existsb is_warning (events (trial_window freq trial_len n_trials)) = b ->
             outcome (trial_window freq trial_len n_trials) = Ok (first_tp, n_shifts) /\
             outcome (compute_bulk_shift func_upsampled petco2hrf freq outprefix
                        trial_len n_trials abs_xcorr) =
             match x_corr (py_slice func_upsampled (Some first_tp) None 1) petco2hrf
                          n_shifts first_tp abs_xcorr with
             | Raise e => Raise e
             | Ok (_, optshift, _) =>
                 if feqb freq f0 then rraise ZeroDivisionError "division by zero"
                 else if Z.of_nat (length petco2hrf)
                         <? optshift + Z.of_nat (length func_upsampled) then
                   rraise Exception
                     "The identified optimal shift {optshift / freq} removes too many samples to continue."
                 else Ok optshift
             end /\
             existsb is_warning
               (events (compute_bulk_shift func_upsampled petco2hrf freq outprefix
                          trial_len n_trials abs_xcorr)) = b).
  { intros first_tp n_shifts b Hw Hb.
    destruct (compute_bulk_shift_after_window func_upsampled petco2hrf freq
                outprefix trial_len n_trials abs_xcorr first_tp n_shifts Hw)
      as [Ho He].
    split; [ exact Hw | split; [ exact Ho | now rewrite He ] ]. }
  split; [ | split; [ | split ] ].
  - intros tl nt Etl Ent Htl Hnt Hfin; cbv zeta; apply Hrun; subst.
    + unfold trial_window; simpl.
      rewrite Htl; destruct (Z.eqb_spec nt 0); [ contradiction | ]; simpl.
      destruct (Z.ltb_spec 3 nt) as [H3 | H3].
      * rewrite (py_int_finite _ (Hfin H3)).
        destruct (4 <? nt); reflexivity.
      * destruct (Z.ltb_spec 4 nt); [ lia | reflexivity ].
    + unfold trial_window; simpl.
      rewrite Htl; destruct (Z.eqb_spec nt 0); [ contradiction | ]; simpl.
      destruct (Z.ltb_spec 3 nt) as [H3 | H3].
      * rewrite (py_int_finite _ (Hfin H3)).
        destruct (4 <? nt); reflexivity.
      * destruct (Z.ltb_spec 4 nt); [ lia | reflexivity ].
  - intros Hx; apply Hrun; unfold trial_window;
      destruct trial_len as [tl | ], n_trials as [nt | ]; simpl in *;
      trial_cases; try congruence; reflexivity.
  - intros H1 H2; apply Hrun; unfold trial_window;
      destruct trial_len as [tl | ], n_trials as [nt | ]; simpl in *;
      trial_cases; try congruence; reflexivity.
  - apply py_slice_whole.
Qed.
End BulkShift.

Example trial_window_five_trials :
  outcome (trial_window (Fixture.q 40 1) (Some (Fixture.q 58 1)) (Some 5))
  = Ok (2320, Some 6960) /\
  outcome (trial_window (Fixture.q 40 1) (Some (Fixture.q 58 1)) (Some 4))
  = Ok (2320, None) /\
  outcome (trial_window (Fixture.q 40 1) (Some (Fixture.q 58 1)) (Some 3))
  = Ok (0, None) /\
  trial_window (Fixture.q 40 1) None (Some 5)
  = ([LogWarning "The number of trials was specified, but the length of trial was not. Using all available trials for bulk shift estimation"],
     Ok (0, None)).
Proof. repeat split; reflexivity. Qed.

Section BulkShiftOverflow.
Context {F : Type} {N : Num F} {W : World F}.

(** C3: once the cross-correlation has chosen a shift, [compute_bulk_shift]
    raises its [Exception] exactly when the shift plus the length of the
    upsampled functional signal exceeds the length of the regressor, and it
    returns the shift exactly otherwise: an overflow never yields a value. *)
Theorem bulk_shift_overflow (func_upsampled petco2hrf : list F) (freq : F)
        (outprefix : string) (trial_len : option F) (n_trials : option Z)
        (abs_xcorr : bool) (first_tp : Z) (n_shifts : option Z)
        (c : F) (optshift : Z) (xcorr : list F) :
  let r := outcome (compute_bulk_shift func_upsampled petco2hrf freq outprefix
                                       trial_len n_trials abs_xcorr) in
  feqb freq f0 = false ->
  outcome (trial_window freq trial_len n_trials) = Ok (first_tp, n_shifts) ->
  x_corr (py_slice func_upsampled (Some first_tp) None 1) petco2hrf n_shifts
         first_tp abs_xcorr = Ok (c, optshift, xcorr) ->
  (r = Raise (mk_exn Exception
                "The identified optimal shift {optshift / freq} removes too many samples to continue.")
   <-> Z.of_nat (length petco2hrf) < optshift + Z.of_nat (length func_upsampled)) /\
  (r = Ok optshift
   <-> optshift + Z.of_nat (length func_upsampled) <= Z.of_nat (length petco2hrf)) /\
  (forall v, r = Ok v -> v = optshift).
Proof.
  intros r Hfreq Hw Hx; subst r; unfold compute_bulk_shift.
  rewrite outcome_bind, Hw.
  run_py; rewrite Hx; unfold py_div; rewrite Hfreq; run_py.
  destruct (Z.ltb_spec (Z.of_nat (length petco2hrf))
                       (optshift + Z.of_nat (length func_upsampled)));
    cbn [outcome snd raise ret];
    (split; [ | split ]); try split; intros; try discriminate; try lia;
      try reflexivity; congruence.
Qed.
End BulkShiftOverflow.

Lemma bulk_shift_overflow_witness :
  outcome (compute_bulk_shift (W := Fixture.world 8) (Fixture.ramp 5)
             (Fixture.ramp 10) (Fixture.q 40 1) "out/sub" None None false)
  = Raise (mk_exn Exception
             "The identified optimal shift {optshift / freq} removes too many samples to continue.")
  /\
  outcome (compute_bulk_shift (W := Fixture.world 5) (Fixture.ramp 5)
             (Fixture.ramp 10) (Fixture.q 40 1) "out/sub" None None false)
  = Ok 5.
Proof.
  split.
  - apply (bulk_shift_overflow (W := Fixture.world 8) (Fixture.ramp 5)
             (Fixture.ramp 10) (Fixture.q 40 1) "out/sub" None None false
             0 None (Q2Qc 1) 8 []);
      [ reflexivity | reflexivity | reflexivity | simpl; lia ].
  - apply (bulk_shift_overflow (W := Fixture.world 5) (Fixture.ramp 5)
             (Fixture.ramp 10) (Fixture.q 40 1) "out/sub" None None false
             0 None (Q2Qc 1) 5 []);
      [ reflexivity | reflexivity | reflexivity | simpl; lia ].
Defined.

(** ** Shape checks *)

Section ShapeChecks.
Context {F : Type} {N : Num F} {W : World F}.

Lemma compute_petco2hrf_rejects_nd (co2 : ndarray F) pidx freq outprefix
      comp_endtidal rf mode :
  (1 < ndim (squeeze co2))%nat ->
  compute_petco2hrf co2 pidx freq outprefix comp_endtidal rf mode =
  raise NotImplementedError "Arrays with more than 2 dimensions are not supported.".
Proof.
  intros H; unfold compute_petco2hrf.
  destruct (Nat.ltb_spec 1 (ndim (squeeze co2))); [ reflexivity | lia ].
Qed.

Lemma convolve_signal_rejects_above_2d (signal : ndarray F) freq rf mode :
  (2 < ndim (squeeze signal))%nat ->
  convolve_signal signal freq rf mode =
  raise NotImplementedError
    "Convolution on data that has more than 1 dimension is not supported yet.".
Proof.
  intros H; unfold convolve_signal.
  destruct (Nat.ltb_spec 2 (ndim (squeeze signal))); [ reflexivity | lia ].
Qed.

(** C6 (the code departs from it): a signal that is still 2-D after squeezing
    passes the shape check of [convolve_signal], which tests [ndim > 2]; with
    no kernel it is returned as it is. *)
Theorem convolve_signal_accepts_2d (a b c d freq : F) (mode : conv_mode) :
  convolve_signal (mk_ndarray [2; 2]%nat [a; b; c; d]) freq RF_None mode =
  ([LogInfo "Skipping convolution with response function"],
   Ok (mk_ndarray [2; 2]%nat [a; b; c; d])).
Proof. reflexivity. Qed.

(** With a numeric kernel the 2-D signal reaches [np.convolve], and the error
    is that of NumPy. *)
Lemma convolve_signal_2d_kernel (a b c d freq : F) (k : list F) (mode : conv_mode) :
  outcome (convolve_signal (mk_ndarray [2; 2]%nat [a; b; c; d]) freq
                           (RF_list (Numeric k)) mode) =
  rraise ValueError "object too deep for desired array".
Proof. reflexivity. Qed.
End ShapeChecks.

(** ** Lag bounds *)

(** C7 (the code departs from it): without [lag_min] the lag bank generator
    evaluates [abs(None)] and raises [TypeError]; no default is filled in. *)
Theorem lag_bank_without_lag_min {F : Type} {N : Num F} (petco2hrf : list F)
        (optshift : Z) (lag_max : option F) (freq : F)
        (func_size func_upsamp_size : Z) (outprefix ext : string)
        (legacy : bool) :
  outcome (create_fine_shift_regressors petco2hrf optshift lag_max None freq
             func_size func_upsamp_size outprefix ext legacy) =
  rraise TypeError "bad operand type for abs(): 'NoneType'".
Proof.
  unfold create_fine_shift_regressors.
  destruct (split_path outprefix); reflexivity.
Qed.

Example create_physio_regressor_without_lag_min :
  outcome (create_physio_regressor (W := Fixture.world 0) (Fixture.ramp 4)
             (Fixture.ramp 40) (Fixture.q 1 1) (Fixture.q 2 1) "out/sub"
             (Some (Fixture.q 9 1)) None None None ".1D" true false false true)
  = rraise TypeError "bad operand type for abs(): 'NoneType'".
Proof. vm_compute; reflexivity. Qed.

(** ** The orchestrator: [create_physio_regressor] *)

Section Orchestrator.
Context {F : Type} {N : Num F} {W : World F} {T : TruncFloor N}.

Lemma export_regressor_1d_outcome (values : list F) ntp outname suffix ext :
  outcome (export_regressor_1d values ntp outname suffix ext) =
  export_row ntp values.
Proof.
  unfold export_regressor_1d; run_py.
  destruct (export_row ntp values); reflexivity.
Qed.

(** C8: flag interactions of [create_physio_regressor].
    (a) Asking for lagged regressors without a (non-zero) [lag_max] ends like
    not asking for them: any result carries no lag bank, and the warning is
    logged.  (b) With [skip_xcorr] the single regressor handed to the export
    is [petco2hrf[0 : len(func_upsampled)]], the slice from index 0.
    (c) With both, for non-empty inputs, a non-zero [tr] and [1 / tr] and a
    finite, non-negative duration-frequency product, the call returns. *)
Theorem physio_regressor_flags (func_avg petco2hrf : list F) (tr freq : F)
        (outprefix : string) (lag_max lag_min trial_len : option F)
        (n_trials : option Z) (ext : string)
        (lagged_regression legacy abs_xcorr skip_xcorr : bool) :
  let run lagged skip :=
    create_physio_regressor func_avg petco2hrf tr freq outprefix lag_max
      lag_min trial_len n_trials ext lagged legacy abs_xcorr skip in
  (truthy lag_max = false ->
   outcome (run true skip_xcorr) = outcome (run false skip_xcorr) /\
   forall d b, outcome (run true skip_xcorr) = Ok (d, b) ->
     b = None /\
     In (LogWarning "Lagged regressors requested but maximum lag not provided. Skipping.")
        (events (run true skip_xcorr))) /\
  (forall d b, outcome (run lagged_regression true) = Ok (d, b) ->
     exists inv_tr func_upsampled,
       py_div f1 tr = Ok inv_tr /\
       resample_signal_freqs func_avg inv_tr freq = Ok func_upsampled /\
       export_row (Z.of_nat (length func_avg))
                  (firstn (length func_upsampled) petco2hrf) = Ok d) /\
  (truthy lag_max = false ->
   func_avg <> [] -> petco2hrf <> [] ->
   feqb tr f0 = false -> feqb (fdiv f1 tr) f0 = false ->
   ffinite (fmul (fdiv (of_Z (Z.of_nat (length func_avg) - 1)) (fdiv f1 tr)) freq)
     = true ->
   fltb (fmul (fdiv (of_Z (Z.of_nat (length func_avg) - 1)) (fdiv f1 tr)) freq) f0
     = false ->
   exists d, outcome (run true true) = Ok (d, None)).
Proof.
  cbv zeta; split; [ | split ].
  - intros Hlag; unfold create_physio_regressor; rewrite Hlag.
    cbn [andb negb]; split.
    + rewrite !outcome_bind.
      destruct (outcome (lift (py_div f1 tr))); [ | reflexivity ].
      rewrite !outcome_bind.
      destruct (outcome (lift (resample_signal_freqs func_avg a freq)));
        [ | reflexivity ].
      rewrite !outcome_bind.
      destruct (outcome (if skip_xcorr then _ else _)); [ | reflexivity ].
      run_py.
      destruct (outcome (export_regressor_1d _ _ _ _ _)); reflexivity.
    + intros d b; rewrite !outcome_bind, !events_bind.
      destruct (outcome (lift (py_div f1 tr))); [ | discriminate ].
      rewrite !outcome_bind, !events_bind.
      destruct (outcome (lift (resample_signal_freqs func_avg a freq)));
        [ | discriminate ].
      rewrite !outcome_bind, !events_bind.
      destruct (outcome (if skip_xcorr then _ else _)); [ | discriminate ].
      run_py; rewrite !events_bind; run_py.
      destruct (outcome (export_regressor_1d _ _ _ _ _)); [ | discriminate ].
      cbn; intros E; inversion E; subst; split; [ reflexivity | ].
      apply in_or_app; right; right; apply in_or_app; right; now left.
  - intros d b; unfold create_physio_regressor.
    rewrite outcome_bind, outcome_lift.
    destruct (py_div f1 tr) as [inv_tr | ]; [ | discriminate ].
    rewrite outcome_bind, outcome_lift.
    destruct (resample_signal_freqs func_avg inv_tr freq) as [fu | ] eqn:Efu;
      [ | discriminate ].
    run_py; rewrite export_regressor_1d_outcome.
    rewrite py_slice_prefix by lia.
    replace (Z.to_nat (0 + Z.of_nat (length fu))) with (length fu) by lia.
    destruct (export_row _ (firstn (length fu) petco2hrf)) as [d' | ] eqn:Ed;
      [ | discriminate ].
    intros E; exists inv_tr, fu; split; [ reflexivity | split; [ exact Efu | ] ].
    destruct (lagged_regression && truthy lag_max);
      [ | destruct (lagged_regression && negb (truthy lag_max)) ];
      revert E; run_py;
      try destruct (outcome (create_fine_shift_regressors _ _ _ _ _ _ _ _ _ _));
      intros E; inversion E; subst; exact Ed.
  - intros Hlag Hfa Hp Htr Hinv Hfin Hx; unfold create_physio_regressor.
    rewrite Hlag; cbn [andb negb]; unfold py_div at 1; rewrite Htr; run_py.
    pose proof (ftrunc_nonneg _ Hx) as Hnn.
    destruct (resample_signal_freqs_ok func_avg (fdiv f1 tr) freq Hfa Hinv Hfin)
      as [fu [-> Hl]]; [ lia | ].
    run_py; rewrite export_regressor_1d_outcome.
    rewrite py_slice_prefix by lia.
    replace (Z.to_nat (0 + Z.of_nat (length fu))) with (length fu) by lia.
    destruct (export_row_ok (Z.of_nat (length func_avg))
                (firstn (length fu) petco2hrf)) as [d [-> _]]; [ | lia | ].
    + destruct petco2hrf; [ congruence | ].
      destruct fu; [ simpl in Hl; lia | discriminate ].
    + exists d; reflexivity.
Qed.
End Orchestrator.

Lemma physio_regressor_flags_witness :
  exists d,
    outcome (create_physio_regressor (W := Fixture.world 0) (Fixture.ramp 4)
               (Fixture.ramp 40) (Fixture.q 3 2) (Fixture.q 2 1) "out/sub"
               None None None None ".1D" true false false true)
    = Ok (d, None).
Proof.
  apply (proj2 (proj2 (physio_regressor_flags (W := Fixture.world 0)
                         (Fixture.ramp 4) (Fixture.ramp 40) (Fixture.q 3 2)
                         (Fixture.q 2 1) "out/sub" None None None None ".1D"
                         true false false true)));
    reflexivity || discriminate.
Defined.

(** ** The envelope interpolator: [endtidal_interpolation] *)

Lemma rmap_nth {A B} (f : A -> result B) (l : list A) l' j x :
  rmap f l = Ok l' -> nth_error l j = Some x ->
  exists y, f x = Ok y /\ nth_error l' j = Some y.
Proof.
  revert l' j; induction l as [ | a t IH ]; intros l' j E Hj.
  - destruct j; discriminate.
  - simpl in E; destruct (f a) as [b | ] eqn:Ea; simpl in E; [ | discriminate ].
    destruct (rmap f t) as [u | ] eqn:Et; simpl in E; [ | discriminate ].
    inversion E; subst; destruct j as [ | j ]; simpl in *.
    + inversion Hj; subst; eauto.
    + eapply IH; eauto.
Qed.

Lemma insert_unique_In p l x :
  In x (insert_unique p l) <-> x = p \/ In x l.
Proof.
  induction l as [ | q t IH ]; simpl; [ intuition | ].
  destruct (Z.ltb_spec p q); [ simpl; intuition | ].
  destruct (Z.eqb_spec p q); simpl; [ subst; intuition | ].
  rewrite IH; intuition.
Qed.

Lemma np_unique_In l x : In x (np_unique l) <-> In x l.
Proof.
  induction l as [ | p t IH ]; simpl; [ reflexivity | ].
  rewrite insert_unique_In, IH; intuition.
Qed.

Lemma insert_unique_sorted p l :
  StronglySorted Z.lt l -> StronglySorted Z.lt (insert_unique p l).
Proof.
  induction 1 as [ | q t Ht IH Hq ]; simpl; [ repeat constructor | ].
  destruct (Z.ltb_spec p q).
  - constructor; [ now constructor | ].
    constructor; [ assumption | ].
    eapply Forall_impl; [ | exact Hq ]; simpl; intros; lia.
  - destruct (Z.eqb_spec p q); [ now constructor | ].
    constructor; [ assumption | ].
    apply Forall_forall; intros x Hx; apply insert_unique_In in Hx.
    destruct Hx as [-> | Hx]; [ lia | ].
    rewrite Forall_forall in Hq; now apply Hq.
Qed.

Lemma np_unique_sorted l : StronglySorted Z.lt (np_unique l).
Proof.
  induction l; simpl; [ constructor | now apply insert_unique_sorted ].
Qed.

Lemma sorted_two_distinct l p q :
  StronglySorted Z.lt l -> In p l -> In q l -> p <> q -> (2 <= length l)%nat.
Proof.
  intros _ Hp Hq Hne.
  destruct l as [ | a [ | b t ] ]; simpl in *; try lia; intuition congruence.
Qed.

Lemma searchsorted_at xs j p :
  StronglySorted Z.lt xs -> nth_error xs j = Some p ->
  searchsorted Z.ltb xs p = j.
Proof.
  intros Hs; revert j; induction Hs as [ | x t Ht IH Hx ]; intros j Hj.
  - destruct j; discriminate.
  - destruct j as [ | j ]; simpl in *.
    + inversion Hj; subst; now rewrite Z.ltb_irrefl.
    + rewrite Forall_forall in Hx.
      pose proof (Hx p (nth_error_In _ _ Hj)) as Hlt.
      apply Z.ltb_lt in Hlt; rewrite Hlt; f_equal; now apply IH.
Qed.

Lemma sorted_nth_lt xs i j a b :
  StronglySorted Z.lt xs -> (i < j)%nat ->
  nth_error xs i = Some a -> nth_error xs j = Some b -> a < b.
Proof.
  intros Hs; revert i j; induction Hs as [ | x t Ht IH Hx ]; intros i j Hij Ha Hb.
  - destruct i; discriminate.
  - destruct j as [ | j ]; [ lia | ].
    destruct i as [ | i ]; simpl in *.
    + inversion Ha; subst; rewrite Forall_forall in Hx.
      apply Hx; eapply nth_error_In; eauto.
    + apply (IH i j); [ lia | exact Ha | exact Hb ].
Qed.

Section EnvelopeFacts.
Context {F : Type} {N : Num F}.

Lemma sort_xy_sorted (xs : list Z) (ys : list F) :
  StronglySorted Z.lt xs ->
  sort_xy Z.ltb (combine xs ys) = combine xs ys.
Proof.
  intros Hs; revert ys; induction Hs as [ | x t Ht IH Hx ]; intros ys;
    [ reflexivity | ].
  destruct ys as [ | y u ]; [ reflexivity | ].
  simpl; rewrite IH.
  destruct t as [ | x' t' ]; [ reflexivity | ].
  destruct u as [ | y' u' ]; [ reflexivity | ].
  simpl; inversion Hx; subst.
  now replace (x <? x') with true by (symmetry; apply Z.ltb_lt; assumption).
Qed.

Lemma take_valid (signal : list F) (xs : list Z) :
  Forall (fun p => 0 <= p < Z.of_nat (length signal)) xs ->
  exists ys, take signal xs = Ok ys /\ length ys = length xs /\
             forall j p, nth_error xs j = Some p ->
                         nth_error ys j = nth_error signal (Z.to_nat p).
Proof.
  intros Hv; unfold take.
  destruct (rmap_total (py_index signal) xs) as [ys Hys].
  { intros p Hp; rewrite Forall_forall in Hv.
    apply py_index_ok; specialize (Hv p Hp); lia. }
  exists ys; split; [ exact Hys | split; [ eapply rmap_length; eauto | ] ].
  intros j p Hj.
  destruct (rmap_nth _ _ _ _ _ Hys Hj) as [y [Hy ->]].
  rewrite Forall_forall in Hv.
  symmetry; apply py_index_nonneg; [ | exact Hy ].
  apply Hv; eapply nth_error_In; eauto.
Qed.

Lemma nth_error_arangeZ n p :
  0 <= p < n -> nth_error (arangeZ n) (Z.to_nat p) = Some p.
Proof.
  intros H; unfold arangeZ.
  rewrite nth_error_map, nth_error_seq.
  destruct (Nat.ltb_spec (Z.to_nat p) (Z.to_nat n)); [ | lia ].
  simpl; f_equal; lia.
Qed.
End EnvelopeFacts.

Lemma map_fst_combine {A B} (l : list A) (l' : list B) :
  length l = length l' -> map fst (combine l l') = l.
Proof.
  revert l'; induction l as [ | a t IH ]; intros [ | b u ] H; simpl in *;
    try discriminate; [ reflexivity | f_equal; apply IH; lia ].
Qed.

Lemma map_snd_combine {A B} (l : list A) (l' : list B) :
  length l = length l' -> map snd (combine l l') = l'.
Proof.
  revert l'; induction l as [ | a t IH ]; intros [ | b u ] H; simpl in *;
    try discriminate; [ reflexivity | f_equal; apply IH; lia ].
Qed.

Lemma nth_error_in_range {A} (l : list A) j :
  (j < length l)%nat -> exists x, nth_error l j = Some x.
Proof.
  intros H; destruct (nth_error l j) eqn:E; [ eauto | ].
  apply nth_error_None in E; lia.
Qed.

Section EnvelopeExact.
Context {F : Type} {N : Num F} {E : ExactNum N}.

(** At an abscissa of the support the interpolant returns its ordinate. *)
Lemma call_linear_at_knot (xs : list Z) (ys : list F) j p :
  StronglySorted Z.lt xs -> length xs = length ys -> (2 <= length xs)%nat ->
  nth_error xs j = Some p ->
  exists y, nth_error ys j = Some y /\
            call_linear Z.ltb Z.sub of_Z (combine xs ys) p = Ok y.
Proof.
  intros Hs Hl Hn Hj; unfold call_linear.
  rewrite map_fst_combine, map_snd_combine by assumption.
  rewrite (searchsorted_at xs j p Hs Hj).
  assert (Hjn : (j < length xs)%nat)
    by (apply nth_error_Some; congruence).
  destruct (nth_error_in_range ys j) as [y Hy]; [ lia | ].
  exists y; split; [ exact Hy | ].
  destruct j as [ | j ].
  - replace (clip (Z.of_nat 0) 1 (Z.of_nat (length xs) - 1)) with 1
      by (unfold clip; lia).
    destruct (nth_error_in_range xs 1) as [x1 Hx1]; [ lia | ].
    destruct (nth_error_in_range ys 1) as [y1 Hy1]; [ lia | ].
    rewrite (proj2 (py_index_nonneg xs (1 - 1) p ltac:(lia))) by exact Hj.
    rewrite (proj2 (py_index_nonneg xs 1 x1 ltac:(lia))) by exact Hx1.
    rewrite (proj2 (py_index_nonneg ys (1 - 1) y ltac:(lia))) by exact Hy.
    rewrite (proj2 (py_index_nonneg ys 1 y1 ltac:(lia))) by exact Hy1.
    cbn [rbind]; rewrite Z.sub_diag, fmul_zero_r, fadd_zero_l; reflexivity.
  - replace (clip (Z.of_nat (S j)) 1 (Z.of_nat (length xs) - 1))
      with (Z.of_nat (S j)) by (unfold clip; lia).
    destruct (nth_error_in_range xs j) as [a Ha]; [ lia | ].
    destruct (nth_error_in_range ys j) as [b Hb]; [ lia | ].
    assert (Hab : a < p) by (eapply (sorted_nth_lt xs j (S j)); eauto).
    rewrite (proj2 (py_index_nonneg xs (Z.of_nat (S j) - 1) a ltac:(lia)))
      by (replace (Z.to_nat (Z.of_nat (S j) - 1)) with j by lia; exact Ha).
    rewrite (proj2 (py_index_nonneg xs (Z.of_nat (S j)) p ltac:(lia)))
      by (rewrite Nat2Z.id; exact Hj).
    rewrite (proj2 (py_index_nonneg ys (Z.of_nat (S j) - 1) b ltac:(lia)))
      by (replace (Z.to_nat (Z.of_nat (S j) - 1)) with j by lia; exact Hb).
    rewrite (proj2 (py_index_nonneg ys (Z.of_nat (S j)) y ltac:(lia)))
      by (rewrite Nat2Z.id; exact Hy).
    cbn [rbind]; rewrite flerp_exact by lia; reflexivity.
Qed.
End EnvelopeExact.

(** C5 (amended): for a 1-D signal and peak indices in range, at least two of
    them distinct (in any order, repeated or not), [endtidal_interpolation]
    does not raise and returns a trace as long as the signal; in exact
    arithmetic the trace equals the signal at every peak index. *)
Theorem endtidal_interpolation_at_peaks {F : Type} {N : Num F}
        (signal : list F) (peaks : list Z) :
  (exists p q, In p peaks /\ In q peaks /\ p <> q) ->
  Forall (fun p => 0 <= p < Z.of_nat (length signal)) peaks ->
  exists trace,
    endtidal_interpolation signal peaks = Ok trace /\
    length trace = length signal /\
    (ExactNum N ->
     forall p, In p peaks ->
               nth_error trace (Z.to_nat p) = nth_error signal (Z.to_nat p)).
Proof.
  intros [p0 [q0 [Hp0 [Hq0 Hne]]]] Hv; unfold endtidal_interpolation.
  set (xs := np_unique peaks).
  assert (Hs : StronglySorted Z.lt xs) by apply np_unique_sorted.
  assert (Hxv : Forall (fun p => 0 <= p < Z.of_nat (length signal)) xs).
  { rewrite Forall_forall in *; intros p Hp; apply Hv; now apply np_unique_In. }
  assert (Hn : (2 <= length xs)%nat).
  { apply (sorted_two_distinct xs p0 q0 Hs); trivial; now apply np_unique_In. }
  destruct (take_valid signal xs Hxv) as [ys [-> [Hl Hys]]]; cbn [rbind].
  destruct (interp1d_ok Z.ltb Z.sub of_Z xs ys
              (arangeZ (Z.of_nat (length signal)))) as [trace [Ht Htl]];
    [ congruence | intros Hx; rewrite Hx in Hn; simpl in Hn; lia | ].
  exists trace; split; [ exact Ht | split ].
  - now rewrite Htl, arangeZ_length, Nat2Z.id.
  - intros E p Hp.
    assert (Hpr : 0 <= p < Z.of_nat (length signal))
      by (rewrite Forall_forall in Hv; now apply Hv).
    apply np_unique_In in Hp; apply In_nth_error in Hp; destruct Hp as [j Hj].
    unfold interp1d in Ht.
    rewrite Hl, Nat.eqb_refl in Ht; cbn [negb] in Ht.
    destruct (Nat.eqb_spec (length xs) 0) as [H0 | H0]; [ lia | ].
    rewrite (sort_xy_sorted xs ys Hs) in Ht.
    destruct (rmap_nth _ _ _ _ _ Ht (nth_error_arangeZ _ p Hpr)) as [y [Hy ->]].
    destruct (call_linear_at_knot xs ys j p Hs (eq_sym Hl) Hn Hj) as [y' [Hy' Hc]].
    rewrite Hc in Hy; inversion Hy; subst y'.
    rewrite <- Hy'; now apply Hys.
Qed.

(** ** Exact rationals satisfy the laws of exact arithmetic *)

Lemma Qc_fltb_true (x y : Qc) : fltb x y = true <-> (x < y)%Qc.
Proof.
  simpl; unfold Qclt; rewrite negb_true_iff; split; intros H.
  - apply Qnot_le_lt; intros Hle; apply Qle_bool_iff in Hle; congruence.
  - destruct (Qle_bool y x) eqn:E; [ | reflexivity ].
    apply Qle_bool_iff in E; exfalso; eapply Qlt_not_le; eauto.
Qed.

Lemma Qc_fltb_false (x y : Qc) : fltb x y = false <-> (y <= x)%Qc.
Proof.
  simpl; unfold Qcle; rewrite negb_false_iff; apply Qle_bool_iff.
Qed.

Lemma Qc_of_Z_0 : of_Z 0 = 0%Qc.
Proof. reflexivity. Qed.

Lemma Qc_of_Z_1 : of_Z 1 = 1%Qc.
Proof. reflexivity. Qed.

Lemma Qc_of_Z_nonzero (d : Z) : d <> 0 -> of_Z d <> 0%Qc.
Proof.
  simpl; intros Hd H; apply Q2Qc_eq_iff in H.
  unfold Qeq in H; simpl in H; lia.
Qed.

#[export] Instance ExactNum_Qc : ExactNum Num_Qc.
Proof.
  split.
  - intros x y; simpl; rewrite Qeq_bool_iff; split;
      [ apply Qc_is_canon | intros ->; reflexivity ].
  - intros x; apply Qc_fltb_false, Qcle_refl.
  - intros x y z; rewrite !Qc_fltb_true; apply Qclt_trans.
  - intros x y z; rewrite !Qc_fltb_false; intros; eapply Qcle_trans; eauto.
  - intros a b; destruct (Z.ltb_spec a b) as [H | H].
    + apply Qc_fltb_true.
      change (Qred (inject_Z a) < Qred (inject_Z b))%Q.
      rewrite !Qred_correct, <- Zlt_Qlt; exact H.
    + apply Qc_fltb_false.
      change (Qred (inject_Z b) <= Qred (inject_Z a))%Q.
      rewrite !Qred_correct, <- Zle_Qle; exact H.
  - intros x; rewrite Qc_of_Z_0; simpl; ring.
  - intros x; rewrite Qc_of_Z_0; simpl; ring.
  - intros a b d Hd; pose proof (Qc_of_Z_nonzero d Hd) as Hz.
    set (z := of_Z d) in *; simpl; field; exact Hz.
  - intros x Hx; rewrite Qc_of_Z_0 in Hx; rewrite Qc_of_Z_1; simpl.
    field; exact Hx.
  - intros x y Hx Hy H; rewrite Qc_of_Z_0 in *; simpl in H.
    apply Hx; rewrite <- (test_field x y Hy), H; ring.
  - intros x m Hm Hx; rewrite Qc_of_Z_0 in Hm; rewrite Qc_of_Z_1.
    apply Qc_fltb_true in Hm; apply Qc_fltb_false in Hx; apply Qc_fltb_false.
    simpl; apply (Qcmult_lt_0_le_reg_r _ _ m Hm).
    rewrite test_field; [ now rewrite Qcmult_1_l | ].
    apply not_eq_sym, Qclt_not_eq; exact Hm.
  - intros x y Hx Hy; rewrite Qc_of_Z_0 in *.
    apply Qc_fltb_true in Hx, Hy; apply Qc_fltb_true; simpl.
    replace 0%Qc with (0 * y)%Qc by ring.
    now apply Qcmult_lt_compat_r.
  - intros x y Hx Hy; rewrite Qc_of_Z_0 in *.
    apply Qc_fltb_true in Hx, Hy; apply Qc_fltb_true; simpl.
    destruct (Qclt_le_dec 0 (x / y)) as [H | H]; [ exact H | exfalso ].
    assert (Hy0 : y <> 0%Qc) by (apply not_eq_sym, Qclt_not_eq; exact Hy).
    assert (Hle : (x / y * y <= 0 * y)%Qc)
      by (apply Qcmult_le_compat_r; [ exact H | now apply Qclt_le_weak ]).
    rewrite test_field in Hle by exact Hy0.
    replace (0 * y)%Qc with 0%Qc in Hle by ring.
    revert Hx; now apply Qcle_not_lt.
Qed.

Lemma endtidal_interpolation_at_peaks_witness :
  exists trace,
    endtidal_interpolation Fixture.digits [7; 2; 2; 5] = Ok trace /\
    length trace = 10%nat /\
    forall p, In p [7; 2; 2; 5] ->
              nth_error trace (Z.to_nat p) = nth_error Fixture.digits (Z.to_nat p).
Proof.
  destruct (endtidal_interpolation_at_peaks Fixture.digits [7; 2; 2; 5])
    as [trace [H1 [H2 H3]]].
  - exists 7, 2; simpl; repeat split; auto; lia.
  - repeat constructor; simpl; lia.
  - exists trace; split; [ exact H1 | split; [ exact H2 | ] ].
    exact (H3 ExactNum_Qc).
Defined.

(** C5 (as stated) fails in binary64: for the signal [0.1, 0, 0, 0.3] with
    peaks at 0 and 3 the interpolant at index 3 is
    [(0.3 - 0.1) / 3 * 3 + 0.1 = 0.30000000000000004], not [0.3]. *)
Lemma endtidal_interpolation_rounds :
  exists trace,
    endtidal_interpolation
      [0x1.999999999999ap-4; 0; 0; 0x1.3333333333333p-2]%float [0; 3]
    = Ok trace /\
    nth_error trace 3 = Some 0x1.3333333333334p-2%float /\
    feqb 0x1.3333333333334p-2%float 0x1.3333333333333p-2%float = false.
Proof.
  eexists; split; [ vm_compute; reflexivity | split; reflexivity ].
Qed.

Lemma endtidal_interpolation_ok {F : Type} {N : Num F}
      (signal : list F) (peaks : list Z) :
  peaks <> [] ->
  Forall (fun p => 0 <= p < Z.of_nat (length signal)) peaks ->
  exists trace, endtidal_interpolation signal peaks = Ok trace /\
                length trace = length signal.
Proof.
  intros Hne Hv; unfold endtidal_interpolation.
  assert (Hxv : Forall (fun p => 0 <= p < Z.of_nat (length signal))
                       (np_unique peaks)).
  { rewrite Forall_forall in *; intros p Hp; apply Hv; now apply np_unique_In. }
  destruct (take_valid signal (np_unique peaks) Hxv) as [ys [-> [Hl _]]].
  cbn [rbind].
  destruct (interp1d_ok Z.ltb Z.sub of_Z (np_unique peaks) ys
              (arangeZ (Z.of_nat (length signal)))) as [trace [Ht Htl]].
  - congruence.
  - intros Hx; destruct peaks as [ | p t ]; [ congruence | ].
    assert (Hin : In p (np_unique (p :: t))) by (apply np_unique_In; now left).
    rewrite Hx in Hin; contradiction.
  - exists trace; split; [ exact Ht | ].
    now rewrite Htl, arangeZ_length, Nat2Z.id.
Qed.

(** ** The default kernel of [compute_petco2hrf] *)

Lemma ndim_squeeze_le {F} (a : ndarray F) : (ndim (squeeze a) <= ndim a)%nat.
Proof. unfold ndim, squeeze; simpl; apply filter_length_le. Qed.

Section DefaultKernel.
Context {F : Type} {N : Num F} {W : World F}.

Lemma convolve_signal_hfr (signal : ndarray F) freq mode :
  path_exists "hfr" = false ->
  (ndim signal <= 2)%nat ->
  outcome (convolve_signal signal freq (RF_str "hfr") mode) =
  rraise NotImplementedError
    "Response function {response_function} is not supported yet or file was not found.".
Proof.
  intros Hp Hn; unfold convolve_signal.
  pose proof (ndim_squeeze_le signal) as Hs.
  destruct (Nat.ltb_spec 2 (ndim (squeeze signal))); [ lia | ].
  rewrite Hp; reflexivity.
Qed.

(** C10: called without [response_function], [compute_petco2hrf] passes its
    default ['hfr'] to [convolve_signal], which knows no such kernel and
    raises [NotImplementedError]: for a 1-D trace, when no file named [hfr]
    exists, and, if the end-tidal interpolation is computed, for peak indices
    that are in range and not empty. *)
Theorem default_response_function_unsupported
        (co2 : ndarray F) (pidx : list Z) (freq : F) (outprefix : string)
        (comp_endtidal : bool) (mode : conv_mode) :
  path_exists "hfr" = false ->
  ndim (squeeze co2) = 1%nat ->
  (comp_endtidal = true ->
   pidx <> [] /\ Forall (fun p => 0 <= p < Z.of_nat (length (data co2))) pidx) ->
  outcome (compute_petco2hrf co2 pidx freq outprefix comp_endtidal
             compute_petco2hrf_default_response_function mode) =
  rraise NotImplementedError
    "Response function {response_function} is not supported yet or file was not found.".
Proof.
  intros Hp Hd Hpk; unfold compute_petco2hrf.
  rewrite Hd; change (1 <? 1)%nat with false; cbv iota.
  change (1 =? 0)%nat with false; cbv iota.
  unfold compute_petco2hrf_default_response_function.
  destruct comp_endtidal.
  - destruct (Hpk eq_refl) as [Hne Hv].
    destruct (endtidal_interpolation_ok (data (squeeze co2)) pidx Hne Hv)
      as [trace [Ht _]].
    run_py; rewrite Ht; run_py.
    change (rf_not_in_nones (RF_str "hfr")) with (@Ok bool true); run_py.
    rewrite convolve_signal_hfr; [ reflexivity | exact Hp | ].
    unfold ndim, array1d; simpl; lia.
  - run_py.
    change (rf_not_in_nones (RF_str "hfr")) with (@Ok bool true); run_py.
    rewrite convolve_signal_hfr; [ reflexivity | exact Hp | ].
    change (ndim (squeeze co2) <= 2)%nat; lia.
Qed.
End DefaultKernel.

Lemma default_response_function_unsupported_witness :
  outcome (compute_petco2hrf (W := Fixture.world 0)
             (mk_ndarray [1; 10; 1]%nat Fixture.digits) [7; 2; 2; 5]
             (Fixture.q 40 1) "out/sub" true
             compute_petco2hrf_default_response_function Full) =
  rraise NotImplementedError
    "Response function {response_function} is not supported yet or file was not found.".
Proof.
  apply (default_response_function_unsupported (W := Fixture.world 0)).
  - reflexivity.
  - reflexivity.
  - intros _; split; [ discriminate | repeat constructor; simpl; lia ].
Defined.

(** ** The canonical HRF: [create_hrf] *)

Section Hrf.
Context {F : Type} {N : Num F}.

Lemma py_min_from_In (cur : F) l : In (py_min_from cur l) (cur :: l).
Proof.
  revert cur; induction l as [ | x t IH ]; intros cur; simpl; [ now left | ].
  destruct (IH (if fltb x cur then x else cur)) as [H | H];
    [ destruct (fltb x cur); rewrite <- H; auto | auto ].
Qed.

Lemma py_max_from_In (cur : F) l : In (py_max_from cur l) (cur :: l).
Proof.
  revert cur; induction l as [ | x t IH ]; intros cur; simpl; [ now left | ].
  destruct (IH (if fltb cur x then x else cur)) as [H | H];
    [ destruct (fltb cur x); rewrite <- H; auto | auto ].
Qed.



Context {E : ExactNum N}.

Lemma fltb_pos_nonzero (x : F) : fltb f0 x = true -> x <> f0.
Proof. intros H ->; rewrite fltb_irrefl in H; discriminate. Qed.

Lemma fltb_lt_le_trans (x y z : F) :
  fltb x y = true -> fltb z y = false -> fltb x z = true.
Proof.
  intros Hxy Hzy; destruct (fltb x z) eqn:Hxz; [ reflexivity | ].
  now rewrite (fltb_cotrans _ _ _ Hxz Hzy) in Hxy.
Qed.

Lemma py_max_from_upper (cur : F) l :
  forall v, In v (cur :: l) -> fltb (py_max_from cur l) v = false.
Proof.
  revert cur; induction l as [ | x t IH ]; intros cur v Hv.
  - destruct Hv as [<- | []]; apply fltb_irrefl.
  - simpl; set (c := if fltb cur x then x else cur).
    assert (Hc : fltb c cur = false /\ fltb c x = false).
    { subst c; destruct (fltb cur x) eqn:Hcx; split;
        try apply fltb_irrefl; [ | exact Hcx ].
      destruct (fltb x cur) eqn:Hxc; [ | reflexivity ].
      pose proof (fltb_trans _ _ _ Hxc Hcx) as Hxx.
      rewrite fltb_irrefl in Hxx; discriminate. }
    pose proof (IH c c (or_introl eq_refl)) as Hm.
    destruct Hv as [<- | [<- | Hv]].
    + eapply fltb_cotrans; [ exact Hm | apply Hc ].
    + eapply fltb_cotrans; [ exact Hm | apply Hc ].
    + apply IH; now right.
Qed.

Lemma hrf_threshold_pos : fltb f0 hrf_threshold = true.
Proof.
  unfold hrf_threshold, eps, f0, f1.
  apply fmul_pos; [ now rewrite of_Z_lt | ].
  apply fdiv_pos; now rewrite of_Z_lt.
Qed.

Lemma f1e_9_pos : fltb f0 f1e_9 = true.
Proof. unfold f1e_9, f0, f1; apply fdiv_pos; now rewrite of_Z_lt. Qed.

(** The normalisation returns exactly when some sample exceeds the
    threshold; the kernel then peaks at 1 and has no zero. *)
Lemma hrf_normalise_ok (s : list F) :
  (exists v, In v s /\ fgtb v hrf_threshold = true) ->
  exists hrf,
    hrf_normalise s = Ok hrf /\
    length hrf = length s /\
    In f1 hrf /\
    (forall v, In v hrf -> fltb f1 v = false) /\
    (forall v, In v hrf -> v <> f0).
Proof.
  intros [v0 [Hv0 Hgt]]; unfold hrf_normalise.
  destruct (filter (fun v => fgtb v hrf_threshold) s) as [ | a t ] eqn:Ef.
  { assert (Hin : In v0 (filter (fun v => fgtb v hrf_threshold) s))
      by (apply filter_In; auto).
    rewrite Ef in Hin; contradiction. }
  cbn [py_min rbind].
  set (m := py_min_from a t).
  assert (Hm : In m s /\ fgtb m hrf_threshold = true).
  { apply (proj1 (filter_In (fun v => fgtb v hrf_threshold) m s)).
    rewrite Ef; apply py_min_from_In. }
  destruct Hm as [_ Hmt]; unfold fgtb in Hmt.
  assert (Hmpos : fltb f0 m = true)
    by (eapply fltb_trans; [ apply hrf_threshold_pos | exact Hmt ]).
  set (min_hrf := if fltb (fmul f1e_9 m) hrf_threshold then hrf_threshold
                  else fmul f1e_9 m).
  assert (Hmin : fltb f0 min_hrf = true).
  { subst min_hrf; destruct (fltb (fmul f1e_9 m) hrf_threshold);
      [ apply hrf_threshold_pos | apply fmul_pos; [ apply f1e_9_pos | exact Hmpos ] ]. }
  set (h := map (fun v => if feqb v f0 then min_hrf else v) s).
  assert (Hnz : forall v, In v h -> v <> f0).
  { intros v Hv; subst h; apply in_map_iff in Hv; destruct Hv as [x [<- _]].
    destruct (feqb x f0) eqn:Ex; [ now apply fltb_pos_nonzero | ].
    intros Hx; apply feqb_eq in Hx; congruence. }
  assert (Hv0pos : fltb f0 v0 = true)
    by (eapply fltb_trans; [ apply hrf_threshold_pos | exact Hgt ]).
  assert (Hv0h : In v0 h).
  { subst h; apply in_map_iff; exists v0; split; [ | exact Hv0 ].
    destruct (feqb v0 f0) eqn:Ex; [ | reflexivity ].
    apply feqb_eq in Ex; now apply fltb_pos_nonzero in Hv0pos. }
  destruct h as [ | b u ] eqn:Eh; [ contradiction | ].
  cbn [py_max rbind].
  set (mx := py_max_from b u).
  pose proof (py_max_from_In b u) as Hmx; fold mx in Hmx.
  pose proof (py_max_from_upper b u) as Hup; fold mx in Hup.
  assert (Hmxpos : fltb f0 mx = true)
    by (eapply fltb_lt_le_trans; [ exact Hv0pos | now apply Hup ]).
  pose proof (fltb_pos_nonzero mx Hmxpos) as Hmx0.
  eexists; split; [ reflexivity | split; [ | split; [ | split ] ] ].
  - rewrite length_map, <- Eh; subst h; now rewrite length_map.
  - apply in_map_iff; exists mx; split; [ now apply fdiv_self | exact Hmx ].
  - intros v Hv; apply in_map_iff in Hv; destruct Hv as [x [<- Hx]].
    apply fdiv_le_one; [ exact Hmxpos | now apply Hup ].
  - intros v Hv; apply in_map_iff in Hv; destruct Hv as [x [<- Hx]].
    apply fdiv_nonzero; [ now apply Hnz | exact Hmx0 ].
Qed.

Lemma hrf_normalise_raises (s : list F) :
  (forall v, In v s -> fgtb v hrf_threshold = false) ->
  hrf_normalise s = rraise ValueError "min() arg is an empty sequence".
Proof.
  intros H; unfold hrf_normalise.
  destruct (filter (fun v => fgtb v hrf_threshold) s) as [ | a t ] eqn:Ef;
    [ reflexivity | ].
  assert (Hin : In a (filter (fun v => fgtb v hrf_threshold) s))
    by (rewrite Ef; now left).
  apply filter_In in Hin; destruct Hin as [Ha Hg]; rewrite H in Hg; congruence.
Qed.
End Hrf.

Lemma Qc_this_of_Z (z : Z) : (this (of_Z z) == inject_Z z)%Q.
Proof. exact (Qred_correct (inject_Z z)). Qed.

Lemma Qc_trunc_floor (x : Qc) : (0 <= x)%Qc -> Qc_trunc x = Qfloor x.
Proof.
  unfold Qcle; simpl; intros H; unfold Qc_trunc.
  destruct x as [[n d] c]; simpl in *.
  unfold Qle in H; simpl in H.
  apply Z.quot_div_nonneg; lia.
Qed.

Lemma Qc_ceilZ_ge (y : Qc) : (0 <= y)%Qc -> (y <= inject_Z (ceilZ y))%Q.
Proof.
  intros Hy; unfold ceilZ.
  change (ftrunc y) with (Qc_trunc y); rewrite (Qc_trunc_floor y Hy).
  destruct (fltb (of_Z (Qfloor y)) y) eqn:E.
  - apply Qlt_le_weak, Qlt_floor.
  - apply Qc_fltb_false in E; unfold Qcle in E.
    now rewrite Qc_this_of_Z in E.
Qed.

Lemma Qc_this_div (x y : Qc) : (this (fdiv x y) == this x / this y)%Q.
Proof.
  change (Qred (this x * Qred (/ this y)) == this x / this y)%Q.
  now rewrite !Qred_correct.
Qed.

Lemma Qc_this_add (x y : Qc) : (this (fadd x y) == this x + this y)%Q.
Proof. exact (Qred_correct (this x + this y)). Qed.

(** In exact arithmetic the first part of [create_hrf] returns at every
    positive frequency: the points it reads lie on the fine grid. *)
Lemma hrf_mixture_returns (W : World Qc) (freq : Qc) :
  (0 < freq)%Qc -> exists s, hrf_mixture freq = Ok s.
Proof.
  intros Hf.
  assert (Hf0 : freq <> 0%Qc) by (apply not_eq_sym, Qclt_not_eq; exact Hf).
  assert (HRT : fdiv f1 freq <> of_Z 0)
    by (apply fdiv_nonzero; [ discriminate | exact Hf0 ]).
  assert (Hdt : fdiv (fdiv f1 freq) (of_Z 16) <> of_Z 0)
    by (apply fdiv_nonzero; [ exact HRT | discriminate ]).
  unfold hrf_mixture, py_div.
  destruct (feqb freq f0) eqn:E1; [ apply feqb_eq in E1; contradiction | ].
  cbn [rbind].
  destruct (feqb (fdiv (fdiv f1 freq) (of_Z 16)) f0) eqn:E2;
    [ apply feqb_eq in E2; contradiction | ].
  cbn [rbind].
  change (arange (fadd (fdiv (of_Z 32) (fdiv (fdiv f1 freq) (of_Z 16))) f1))
    with (Ok (map (of_Z (F := Qc))
                  (arangeZ (ceilZ (fadd (fdiv (of_Z 32)
                                     (fdiv (fdiv f1 freq) (of_Z 16))) f1))))).
  cbn [rbind].
  destruct (feqb (fdiv f1 freq) f0) eqn:E3; [ apply feqb_eq in E3; contradiction | ].
  cbn [rbind].
  change (py_int (fadd (fdiv (of_Z 32) (fdiv f1 freq)) f1))
    with (Ok (ftrunc (fadd (fdiv (of_Z 32) (fdiv f1 freq)) f1))).
  cbn [rbind].
  set (nu := fdiv (of_Z 32) (fdiv (fdiv f1 freq) (of_Z 16))).
  set (nt := fdiv (of_Z 32) (fdiv f1 freq)).
  unfold Qclt in Hf; change (this 0%Qc) with 0%Q in Hf.
  assert (Hfq : ~ (this freq == 0)%Q) by lra.
  assert (Hnt : (this (fadd nt f1) == 32 * this freq + 1)%Q).
  { subst nt; rewrite Qc_this_add, !Qc_this_div, !Qc_this_of_Z.
    unfold f1; rewrite !Qc_this_of_Z; simpl inject_Z; field; exact Hfq. }
  assert (Hnu : (this (fadd nu f1) == 512 * this freq + 1)%Q).
  { subst nu; rewrite Qc_this_add, !Qc_this_div, !Qc_this_of_Z.
    unfold f1; rewrite !Qc_this_of_Z; simpl inject_Z; field; exact Hfq. }
  apply rmap_total; intros idx Hidx.
  apply in_map_iff in Hidx; destruct Hidx as [i [<- Hi]].
  unfold arangeZ in Hi; apply in_map_iff in Hi; destruct Hi as [k [<- Hk]].
  apply in_seq in Hk.
  apply py_index_ok.
  rewrite !length_map, arangeZ_length.
  assert (Hx : (0 <= fadd nt f1)%Qc)
    by (unfold Qcle; change (this 0%Qc) with 0%Q; lra).
  assert (Hy : (0 <= fadd nu f1)%Qc)
    by (unfold Qcle; change (this 0%Qc) with 0%Q; lra).
  pose proof (Qc_ceilZ_ge _ Hy) as Hc.
  change (ftrunc (fadd nt f1)) with (Qc_trunc (fadd nt f1)) in Hk.
  rewrite (Qc_trunc_floor _ Hx) in Hk.
  pose proof (Qfloor_le (fadd nt f1)) as Hfl.
  assert (Hk1 : (inject_Z (Z.of_nat k + 1) <= inject_Z (Qfloor (fadd nt f1)))%Q)
    by (rewrite <- Zle_Qle; lia).
  rewrite inject_Z_plus in Hk1.
  assert (Hlt : (inject_Z (Z.of_nat k * 16) < inject_Z (ceilZ (fadd nu f1)))%Q).
  { rewrite inject_Z_mult; change (inject_Z 16) with 16%Q.
    change (inject_Z 1) with 1%Q in Hk1; lra. }
  rewrite <- Zlt_Qlt in Hlt; lia.
Qed.

(** X10: in exact arithmetic and at a positive frequency, the indices
    [time_axis] stay inside the fine grid, so that [hrf[time_axis]] never
    raises, and [create_hrf] returns exactly when some sample of the mixture
    exceeds [10 * eps]. *)
Lemma create_hrf_returns_iff (W : World Qc) (freq : Qc) :
  (0 < freq)%Qc ->
  exists s,
    hrf_mixture freq = Ok s /\
    ((exists hrf, create_hrf freq = Ok hrf) <->
     (exists v, In v s /\ fgtb v hrf_threshold = true)).
Proof.
  intros Hf; destruct (hrf_mixture_returns W freq Hf) as [s Hs].
  exists s; split; [ exact Hs | ].
  unfold create_hrf; rewrite Hs; cbn [rbind]; split.
  - intros [hrf Hh].
    destruct (existsb (fun v => fgtb v hrf_threshold) s) eqn:Ex.
    + apply existsb_exists in Ex; exact Ex.
    + rewrite hrf_normalise_raises in Hh; [ discriminate | ].
      intros v Hv; destruct (fgtb v hrf_threshold) eqn:Ev; [ | reflexivity ].
      assert (Hex : existsb (fun v => fgtb v hrf_threshold) s = true)
        by (apply existsb_exists; eauto).
      congruence.
  - intros Hv; destruct (hrf_normalise_ok s Hv) as [hrf [Hh _]]; eauto.
Qed.

(** Both arithmetics divide a finite, non-zero number by itself to 1. *)
#[export] Instance DivSelf_Qc : DivSelf Num_Qc.
Proof.
  constructor; intros x _ Hz.
  apply (fdiv_self (N := Num_Qc)); intros E.
  apply (feqb_eq (N := Num_Qc)) in E; congruence.
Qed.



(** ** The order and the quotients of binary64 *)






















#[export] Instance DivOrder_Qc : DivOrder Num_Qc.
Proof.
  constructor.
  - apply (fltb_irrefl (N := Num_Qc)).
  - apply (fltb_trans (N := Num_Qc)).
  - intros x y z _; apply (fltb_cotrans (N := Num_Qc)).
  - apply (fdiv_le_one (N := Num_Qc)).
Qed.




(** The same kernel, measured: in binary64, at 5 Hz, it has 161 samples, the
    largest of them is 1, none exceeds 1 and none is 0. *)
Example create_hrf_binary64 :
  exists hrf,
    create_hrf (W := Fixture.world64 0) 5%float = Ok hrf /\
    length hrf = 161%nat /\
    py_max hrf = Ok 1%float /\
    existsb (fun v => fltb 1%float v) hrf = false /\
    existsb (fun v => feqb v 0%float) hrf = false.
Proof.
  eexists; split; [ vm_compute; reflexivity | ].
  split; [ | split; [ | split ] ]; vm_compute; reflexivity.
Qed.


(** * Further properties of the two modules *)

(** ** Resampling to a number of samples *)

(** X1: [resample_signal_samples] returns exactly [samples] samples of a
    non-empty series when [samples] is not negative; a negative [samples] and
    an empty series both end in a ValueError. *)
Theorem resample_signal_samples_count {F : Type} {N : Num F}
        (ts : list F) (samples : Z) :
  (ts <> [] -> 0 <= samples ->
   exists r, resample_signal_samples ts samples = Ok r /\
             Z.of_nat (length r) = samples) /\
  (samples < 0 ->
   exists msg,
     resample_signal_samples ts samples = Raise (mk_exn ValueError msg)) /\
  (ts = [] -> 0 <= samples ->
   exists msg,
     resample_signal_samples ts samples = Raise (mk_exn ValueError msg)).
Proof.
  split; [ | split ].
  - intros Hts Hs.
    destruct (resample_signal_samples_ok ts samples Hts Hs) as [r [Hr Hl]].
    exists r; split; [ exact Hr | lia ].
  - intros Hs; unfold resample_signal_samples, linspace.
    destruct (Z.ltb_spec samples 0); [ eexists; reflexivity | lia ].
  - intros -> Hs; unfold resample_signal_samples.
    destruct (linspace_ok f0 (of_Z (Z.of_nat (@length F []) - 1)) samples Hs)
      as [regr_t [-> _]].
    eexists; reflexivity.
Qed.

(** ** Kernels given by name: [convolve_signal] *)

Section KernelNames.
Context {F : Type} {N : Num F} {W : World F}.


(** X3: without the optional package phys2denoise, the names rrf, crf and
    icrf (in any capitalisation) raise ImportError, whatever the frequency:
    the import is attempted before [1 / freq] is evaluated. *)
Theorem convolve_signal_missing_dependency (signal : ndarray F) (freq : F)
        (s : string) (mode : conv_mode) :
  (ndim (squeeze signal) <= 2)%nat ->
  path_exists s = false ->
  phys2denoise = None ->
  In (lower s) ["rrf"; "crf"; "icrf"] ->
  exists msg,
    outcome (convolve_signal signal freq (RF_str s) mode) =
    Raise (mk_exn ImportError msg).
Proof.
  intros Hd Hp Hn Hs; unfold convolve_signal.
  destruct (Nat.ltb_spec 2 (ndim (squeeze signal))); [ lia | ].
  rewrite Hp.
  destruct (String.eqb_spec (lower s) "none") as [E | _];
    [ rewrite E in Hs; simpl in Hs; intuition discriminate | ].
  run_py.
  destruct Hs as [<- | [<- | [<- | []]]]; cbn [String.eqb Ascii.eqb Bool.eqb];
    rewrite Hn; eexists; reflexivity.
Qed.
End KernelNames.


Lemma convolve_signal_missing_dependency_witness :
  exists msg,
    outcome (convolve_signal (W := Fixture.world 0) (array1d Fixture.digits)
               (of_Z 0) (RF_str "iCRF") Full) =
    Raise (mk_exn ImportError msg).
Proof.
  apply (convolve_signal_missing_dependency (W := Fixture.world 0)).
  - vm_compute; lia.
  - reflexivity.
  - reflexivity.
  - simpl; tauto.
Defined.

(** ** Convolution with a kernel given by value *)

Section KernelValues.
Context {F : Type} {N : Num F} {W : World F}.

(** X4: convolving a non-empty 1-D signal of [n] samples with a non-empty
    numeric kernel of [m] values (a list or an array) returns a 1-D array of
    [n + m - 1] samples in mode full, [max n m] in mode same and
    [max n m - min n m + 1] in mode valid. *)
Theorem convolve_signal_length (signal : ndarray F) (freq : F)
        (rf : response_function F) (k : list F) (mode : conv_mode) :
  rf = RF_list (Numeric k) \/ rf = RF_ndarray (Numeric k) ->
  (ndim (squeeze signal) <= 1)%nat ->
  data signal <> [] ->
  k <> [] ->
  exists c,
    outcome (convolve_signal signal freq rf mode) = Ok (array1d c) /\
    length c =
    let n := length (data signal) in
    let m := length k in
    match mode with
    | Full => (n + m - 1)%nat
    | Same => Nat.max n m
    | Valid => (Nat.max n m - Nat.min n m + 1)%nat
    end.
Proof.
  intros Hrf Hd Hs Hk.
  assert (Hn : (0 < length (data signal))%nat)
    by (destruct (data signal); [ congruence | simpl; lia ]).
  assert (Hm : (0 < length k)%nat) by (destruct k; [ congruence | simpl; lia ]).
  set (c := match mode with
            | Full => conv_full (data signal) k
            | Same => firstn (Nat.max (length (data signal)) (length k))
                        (skipn ((Nat.min (length (data signal)) (length k) - 1) / 2)
                               (conv_full (data signal) k))
            | Valid => firstn (Nat.max (length (data signal)) (length k)
                               - Nat.min (length (data signal)) (length k) + 1)
                         (skipn (Nat.min (length (data signal)) (length k) - 1)
                                (conv_full (data signal) k))
            end).
  assert (Hc : np_convolve (squeeze signal) k mode = Ok c).
  { unfold np_convolve.
    destruct (Nat.ltb_spec 1 (ndim (squeeze signal))); [ lia | ].
    change (data (squeeze signal)) with (data signal).
    destruct (Nat.eqb_spec (length (data signal)) 0); [ lia | ].
    destruct (Nat.eqb_spec (length k) 0); [ lia | ].
    reflexivity. }
  assert (Hf : length (conv_full (data signal) k)
               = (length (data signal) + length k - 1)%nat)
    by (unfold conv_full; now rewrite length_map, length_seq).
  assert (Hl : length c =
               match mode with
               | Full => (length (data signal) + length k - 1)%nat
               | Same => Nat.max (length (data signal)) (length k)
               | Valid => (Nat.max (length (data signal)) (length k)
                           - Nat.min (length (data signal)) (length k) + 1)%nat
               end).
  { subst c; destruct mode; rewrite ?length_firstn, ?length_skipn, Hf.
    - reflexivity.
    - lia.
    - assert ((Nat.min (length (data signal)) (length k) - 1) / 2
              <= Nat.min (length (data signal)) (length k) - 1)%nat
        by (apply Nat.Div0.div_le_upper_bound; lia).
      lia. }
  assert (Hpos : (0 < length c)%nat) by (rewrite Hl; destruct mode; lia).
  exists (map (fun x => np_interp2 x (py_min_from (hd f0 c) (tl c))
                                   (py_max_from (hd f0 c) (tl c))
                                   (py_min_from (hd f0 (data signal)) (tl (data signal)))
                                   (py_max_from (hd f0 (data signal)) (tl (data signal))))
              c).
  split; [ | now rewrite length_map ].
  unfold convolve_signal.
  pose proof (ndim_squeeze_le signal).
  destruct (Nat.ltb_spec 2 (ndim (squeeze signal))); [ lia | ].
  destruct Hrf as [-> | ->]; run_py; rewrite Hc.
  all: destruct c as [ | c0 ct ]; [ simpl in Hpos; lia | ].
  all: change (data (squeeze signal)) with (data signal).
  all: destruct (data signal) as [ | s0 st ]; [ congruence | ].
  all: reflexivity.
Qed.
End KernelValues.

Lemma convolve_signal_length_witness :
  exists c,
    outcome (convolve_signal (W := Fixture.world 0) (array1d Fixture.digits)
               (Fixture.q 40 1) (RF_list (Numeric (Fixture.ramp 4))) Same)
    = Ok (array1d c) /\
    length c = 10%nat.
Proof.
  refine (convolve_signal_length (W := Fixture.world 0) (array1d Fixture.digits)
            (Fixture.q 40 1) (RF_list (Numeric (Fixture.ramp 4)))
            (Fixture.ramp 4) Same _ _ _ _).
  - now left.
  - vm_compute; lia.
  - discriminate.
  - discriminate.
Defined.

(** ** Skipping the convolution: [compute_petco2hrf] *)

Section SkipConvolution.
Context {F : Type} {N : Num F} {W : World F}.

(** X5: [compute_petco2hrf] skips the convolution for every spelling of
    none.  The spellings none, None and NONE behave exactly like [None]; any
    other capitalisation (that is not the name of an existing file) is passed
    to [convolve_signal], which returns the same trace squeezed, and fails
    where [None] fails. *)
Theorem compute_petco2hrf_none_any_case (co2 : ndarray F) (pidx : list Z)
        (freq : F) (outprefix : string) (comp_endtidal : bool) (s : string)
        (mode : conv_mode) :
  let run rf :=
    compute_petco2hrf co2 pidx freq outprefix comp_endtidal rf mode in
  (In s ["none"; "None"; "NONE"] -> run (RF_str s) = run RF_None) /\
  (~ In s ["none"; "None"; "NONE"] -> lower s = "none" ->
   path_exists s = false ->
   outcome (run (RF_str s)) =
   match outcome (run RF_None) with
   | Ok petco2 => Ok (squeeze petco2)
   | Raise e => Raise e
   end).
Proof.
  intros run; subst run; split.
  - intros [<- | [<- | [<- | []]]]; reflexivity.
  - intros Hs Hl Hp.
    assert (Hr : rf_not_in_nones (F := F) (RF_str s) = Ok true).
    { unfold rf_not_in_nones; f_equal.
      destruct (String.eqb_spec s "none") as [-> | _];
        [ exfalso; apply Hs; simpl; tauto | ].
      destruct (String.eqb_spec s "None") as [-> | _];
        [ exfalso; apply Hs; simpl; tauto | ].
      destruct (String.eqb_spec s "NONE") as [-> | _];
        [ exfalso; apply Hs; simpl; tauto | ].
      reflexivity. }
    assert (Hc : forall a : ndarray F, (ndim a <= 1)%nat ->
              outcome (convolve_signal a freq (RF_str s) mode) = Ok (squeeze a)).
    { intros a Ha; unfold convolve_signal.
      pose proof (ndim_squeeze_le a).
      destruct (Nat.ltb_spec 2 (ndim (squeeze a))); [ lia | ].
      rewrite Hp, Hl; reflexivity. }
    unfold compute_petco2hrf.
    destruct (Nat.ltb_spec 1 (ndim (squeeze co2))) as [ | Hd ]; [ reflexivity | ].
    rewrite Hr; cbn [rf_not_in_nones].
    destruct comp_endtidal.
    + destruct (ndim (squeeze co2) =? 0)%nat; run_py; [ reflexivity | ].
      destruct (endtidal_interpolation (data (squeeze co2)) pidx) as [ t | e ];
        run_py; [ | reflexivity ].
      rewrite Hc by (unfold ndim, array1d; simpl; lia).
      reflexivity.
    + run_py.
      rewrite Hc by exact Hd.
      reflexivity.
Qed.
End SkipConvolution.

(** ** What [compute_bulk_shift] leaves behind *)

Section BulkShiftOutputs.
Context {F : Type} {N : Num F} {W : World F}.

(** X6: once the cross-correlation has returned, [compute_bulk_shift] logs the
    shift, writes the file [<outprefix>_optshift.1D] and draws the
    cross-correlation plot before it checks the shift: the three are produced
    also when the call ends in the overflow exception.  When the
    cross-correlation raises, or the frequency is zero, the exception comes
    out with nothing written. *)
Theorem compute_bulk_shift_outputs (func_upsampled petco2hrf : list F) (freq : F)
        (outprefix : string) (trial_len : option F) (n_trials : option Z)
        (abs_xcorr : bool) (first_tp : Z) (n_shifts : option Z) :
  let run := compute_bulk_shift func_upsampled petco2hrf freq outprefix
                                trial_len n_trials abs_xcorr in
  let xc := x_corr (py_slice func_upsampled (Some first_tp) None 1) petco2hrf
                   n_shifts first_tp abs_xcorr in
  outcome (trial_window freq trial_len n_trials) = Ok (first_tp, n_shifts) ->
  (forall c optshift xcorr, xc = Ok (c, optshift, xcorr) ->
     feqb freq f0 = false ->
     events run =
     events (trial_window freq trial_len n_trials) ++
     [LogInfo "Cross correlation estimated a bulk shift of {optshift / freq} seconds";
      SaveTxt (outprefix ++ "_optshift.1D")%string;
      Plot outprefix]) /\
  (forall c optshift xcorr, xc = Ok (c, optshift, xcorr) ->
     feqb freq f0 = true ->
     events run = events (trial_window freq trial_len n_trials) /\
     outcome run = rraise ZeroDivisionError "division by zero") /\
  (forall e, xc = Raise e ->
     events run = events (trial_window freq trial_len n_trials) /\
     outcome run = Raise e).
Proof.
  intros run xc Hw; subst run xc; unfold compute_bulk_shift.
  rewrite events_bind, outcome_bind, Hw.
  split; [ | split ].
  - intros c optshift xcorr Hx Hf; f_equal.
    rewrite Hx; unfold py_div; rewrite Hf; cbn.
    destruct (_ <? _); reflexivity.
  - intros c optshift xcorr Hx Hf.
    rewrite Hx; unfold py_div; rewrite Hf; cbn.
    now rewrite app_nil_r.
  - intros e Hx; rewrite Hx; cbn.
    now rewrite app_nil_r.
Qed.
End BulkShiftOutputs.

Lemma compute_bulk_shift_outputs_witness :
  events (compute_bulk_shift (W := Fixture.world 8) (Fixture.ramp 5)
            (Fixture.ramp 10) (Fixture.q 40 1) "out/sub" None None false) =
  [LogInfo "Using all trials for bulk shift estimation.";
   LogInfo "Cross correlation estimated a bulk shift of {optshift / freq} seconds";
   SaveTxt "out/sub_optshift.1D"; Plot "out/sub"] /\
  outcome (compute_bulk_shift (W := Fixture.world 8) (Fixture.ramp 5)
             (Fixture.ramp 10) (Fixture.q 40 1) "out/sub" None None false) =
  Raise (mk_exn Exception
           "The identified optimal shift {optshift / freq} removes too many samples to continue.").
Proof.
  split; [ | reflexivity ].
  refine (proj1 (compute_bulk_shift_outputs (W := Fixture.world 8)
                   (Fixture.ramp 5) (Fixture.ramp 10) (Fixture.q 40 1) "out/sub"
                   None None false 0 None _) (Q2Qc 1) 8 [] _ _);
    reflexivity.
Defined.

(** ** Peaks of the envelope interpolator *)

Lemma sorted_same_elements (l1 l2 : list Z) :
  StronglySorted Z.lt l1 -> StronglySorted Z.lt l2 ->
  (forall x, In x l1 <-> In x l2) -> l1 = l2.
Proof.
  intros H1; revert l2; induction H1 as [ | a l1 Hs IH Ha ]; intros l2 H2 Hin.
  - destruct l2 as [ | b l2 ]; [ reflexivity | ].
    destruct (proj2 (Hin b)); now left.
  - destruct H2 as [ | b l2 Hs2 Hb ];
      [ destruct (proj1 (Hin a)); now left | ].
    rewrite Forall_forall in Ha, Hb.
    assert (Hab : a = b).
    { destruct (proj1 (Hin a)) as [E | E]; [ now left | now symmetry | ].
      destruct (proj2 (Hin b)) as [E' | E']; [ now left | exact E' | ].
      specialize (Ha _ E'); specialize (Hb _ E); lia. }
    subst b; f_equal; apply IH; [ exact Hs2 | ].
    intros x; split; intros Hx.
    + destruct (proj1 (Hin x)) as [E | E]; [ now right | | exact E ].
      specialize (Ha _ Hx); lia.
    + destruct (proj2 (Hin x)) as [E | E]; [ now right | | exact E ].
      specialize (Hb _ Hx); lia.
Qed.

Lemma take_out_of_range {A} (l : list A) (idx : list Z) :
  (exists p, In p idx /\ ~ (- Z.of_nat (length l) <= p < Z.of_nat (length l))) ->
  take l idx = rraise IndexError "index out of bounds".
Proof.
  unfold take; induction idx as [ | i t IH ]; intros [p [Hp Hr]];
    [ contradiction | ].
  simpl.
  destruct (py_index l i) as [ x | e ] eqn:E.
  - cbn [rbind]; rewrite IH; [ reflexivity | ].
    destruct Hp as [-> | Hp]; [ | now exists p ].
    exfalso; revert E; unfold py_index.
    destruct (Z.ltb_spec p 0);
      [ destruct (Z.ltb_spec (p + Z.of_nat (length l)) 0); [ discriminate | ]
      | destruct (Z.ltb_spec p 0); [ lia | ] ]; cbn [orb];
      match goal with
      | |- context [ ?a <=? ?b ] => destruct (Z.leb_spec a b)
      end; try discriminate; lia.
  - revert E; unfold py_index.
    destruct (_ || _); [ now intros <- | ].
    destruct (nth_error _ _); [ discriminate | now intros <- ].
Qed.

(** X7: [endtidal_interpolation] reads its peaks as a set: their order and
    their repetitions do not change the result. *)
Theorem endtidal_interpolation_peak_set {F : Type} {N : Num F}
        (signal : list F) (peaks peaks' : list Z) :
  (forall p, In p peaks <-> In p peaks') ->
  endtidal_interpolation signal peaks = endtidal_interpolation signal peaks'.
Proof.
  intros H; unfold endtidal_interpolation.
  rewrite (sorted_same_elements (np_unique peaks) (np_unique peaks'));
    [ reflexivity | apply np_unique_sorted | apply np_unique_sorted | ].
  intros x; rewrite !np_unique_In; apply H.
Qed.

Lemma endtidal_interpolation_peak_set_witness :
  endtidal_interpolation Fixture.digits [7; 2; 2; 5] =
  endtidal_interpolation Fixture.digits [2; 5; 7].
Proof.
  apply (endtidal_interpolation_peak_set Fixture.digits [7; 2; 2; 5] [2; 5; 7]).
  intros p; simpl; tauto.
Defined.

(** X8: for a non-empty set of peaks, [endtidal_interpolation] raises
    IndexError as soon as one peak is outside [-len(signal), len(signal));
    otherwise it returns a trace as long as the signal.  Negative peaks in
    that range are accepted and count from the end of the signal. *)
Theorem endtidal_interpolation_peak_range {F : Type} {N : Num F}
        (signal : list F) (peaks : list Z) :
  let L := Z.of_nat (length signal) in
  peaks <> [] ->
  ((exists p, In p peaks /\ ~ (- L <= p < L)) ->
   exists msg,
     endtidal_interpolation signal peaks = Raise (mk_exn IndexError msg)) /\
  ((forall p, In p peaks -> - L <= p < L) ->
   exists trace, endtidal_interpolation signal peaks = Ok trace /\
                 length trace = length signal).
Proof.
  intros L Hne; subst L; unfold endtidal_interpolation; split.
  - intros [p [Hp Hr]].
    rewrite take_out_of_range; [ eexists; reflexivity | ].
    exists p; split; [ now apply np_unique_In | exact Hr ].
  - intros Hr.
    destruct (rmap_total (py_index signal) (np_unique peaks)) as [ys Hys].
    { intros p Hp; apply py_index_ok, Hr; now apply np_unique_In. }
    unfold take; rewrite Hys; cbn [rbind].
    destruct (interp1d_ok Z.ltb Z.sub of_Z (np_unique peaks) ys
                (arangeZ (Z.of_nat (length signal)))) as [trace [Ht Htl]].
    + symmetry; eapply rmap_length; eauto.
    + intros Hx; destruct peaks as [ | p t ]; [ congruence | ].
      assert (Hin : In p (np_unique (p :: t))) by (apply np_unique_In; now left).
      rewrite Hx in Hin; contradiction.
    + exists trace; split; [ exact Ht | ].
      now rewrite Htl, arangeZ_length, Nat2Z.id.
Qed.

Lemma endtidal_interpolation_peak_range_witness :
  (exists msg, endtidal_interpolation Fixture.digits [2; 10] =
               Raise (mk_exn IndexError msg)) /\
  exists trace, endtidal_interpolation Fixture.digits [-1; 2] = Ok trace /\
                length trace = 10%nat.
Proof.
  split.
  - refine (proj1 (endtidal_interpolation_peak_range Fixture.digits [2; 10] _) _).
    + discriminate.
    + exists 10; split; [ simpl; tauto | simpl; lia ].
  - refine (proj2 (endtidal_interpolation_peak_range Fixture.digits [-1; 2] _) _).
    + discriminate.
    + simpl; intros p [<- | [<- | []]]; lia.
Defined.

(** ** Closed instances of the lag bank and of the HRF *)

Lemma lag_bank_empty_for_small_shift_witness :
  outcome (create_fine_shift_regressors (Fixture.ramp 40) 2
             (Some (Fixture.q 3 1)) (Some (Fixture.q (-3) 1)) (Fixture.q 1 1)
             4 8 "out/sub" ".1D" false) = Ok [].
Proof.
  refine (lag_bank_empty_for_small_shift (Fixture.ramp 40) 2 (Fixture.q 3 1)
            (Fixture.q (-3) 1) (Fixture.q 1 1) 4 8 "out/sub" ".1D" false
            _ _ _ _ _ _).
  - reflexivity.
  - reflexivity.
  - vm_compute; discriminate.
  - vm_compute; split; discriminate.
  - discriminate.
  - reflexivity.
Defined.

Lemma create_hrf_returns_iff_witness :
  exists s,
    hrf_mixture (W := Fixture.world 0) (Fixture.q 1 8) = Ok s /\
    ((exists hrf, create_hrf (W := Fixture.world 0) (Fixture.q 1 8) = Ok hrf) <->
     (exists v, In v s /\ fgtb v hrf_threshold = true)).
Proof.
  apply (create_hrf_returns_iff (Fixture.world 0) (Fixture.q 1 8)).
  reflexivity.
Defined.

(** ** Exact arithmetic: sums, means and [spc] *)

(** The operations of the class at [Qc], for [ring] and [field]. *)
Ltac qc_ops :=
  change (@fadd Qc Num_Qc) with Qcplus in *;
  change (@fsub Qc Num_Qc) with Qcminus in *;
  change (@fmul Qc Num_Qc) with Qcmult in *;
  change (@fdiv Qc Num_Qc) with Qcdiv in *;
  change (@f0 Qc Num_Qc) with 0%Qc in *;
  change (@f1 Qc Num_Qc) with 1%Qc in *;
  change (@of_Z Qc Num_Qc 0) with 0%Qc in *;
  change (@of_Z Qc Num_Qc 1) with 1%Qc in *.

Lemma Qc_of_Z_add (a b : Z) : (of_Z (a + b) : Qc) = (of_Z a + of_Z b)%Qc.
Proof.
  apply Qc_is_canon.
  change (Qred (inject_Z (a + b)) == Qred (Qred (inject_Z a) + Qred (inject_Z b)))%Q.
  rewrite !Qred_correct, inject_Z_plus; reflexivity.
Qed.

Lemma Qc_of_Z_mul (a b : Z) : (of_Z (a * b) : Qc) = (of_Z a * of_Z b)%Qc.
Proof.
  apply Qc_is_canon.
  change (Qred (inject_Z (a * b)) == Qred (Qred (inject_Z a) * Qred (inject_Z b)))%Q.
  rewrite !Qred_correct, inject_Z_mult; reflexivity.
Qed.

Lemma Qc_of_Z_opp (a : Z) : (of_Z (- a) : Qc) = (- of_Z a)%Qc.
Proof.
  apply Qc_is_canon.
  change (Qred (inject_Z (- a)) == Qred (- Qred (inject_Z a)))%Q.
  rewrite !Qred_correct, inject_Z_opp; reflexivity.
Qed.

Lemma Qc_trunc_of_Z (z : Z) : ftrunc (of_Z z : Qc) = z.
Proof.
  change (Qc_trunc (Q2Qc (inject_Z z)) = z); unfold Qc_trunc, Q2Qc; cbn [this].
  rewrite Qred_identity by (simpl; apply Z.gcd_1_r).
  simpl; apply Z.quot_1_r.
Qed.

Lemma Qc_fold_plus (l : list Qc) (a : Qc) :
  fold_left Qcplus l a = (a + fold_left Qcplus l 0)%Qc.
Proof.
  revert a; induction l as [ | x t IH ]; intros a; simpl.
  - ring.
  - rewrite (IH (a + x)%Qc), (IH (0 + x)%Qc); ring.
Qed.

Lemma Qc_fsum_cons (x : Qc) (l : list Qc) : fsum (x :: l) = (x + fsum l)%Qc.
Proof.
  unfold fsum; qc_ops; simpl; rewrite Qc_fold_plus; ring.
Qed.

Lemma Qc_fsum_affine (l : list Qc) (a b : Qc) :
  fsum (map (fun x => (a * x + b)%Qc) l) =
  (a * fsum l + of_Z (Z.of_nat (length l)) * b)%Qc.
Proof.
  induction l as [ | x t IH ].
  - unfold fsum; cbn [map fold_left length]; change (Z.of_nat 0) with 0;
      qc_ops; ring.
  - cbn [map length]; rewrite !Qc_fsum_cons, IH, Nat2Z.inj_succ.
    unfold Z.succ; rewrite Qc_of_Z_add; qc_ops; ring.
Qed.

Lemma Qc_mean_times_length (l : list Qc) :
  l <> [] -> (of_Z (Z.of_nat (length l)) * mean l)%Qc = fsum l.
Proof.
  intros Hl; unfold mean; qc_ops.
  assert (Hn : (of_Z (Z.of_nat (length l)) : Qc) <> 0%Qc).
  { apply Qc_of_Z_nonzero; destruct l; [ congruence | simpl; lia ]. }
  field; exact Hn.
Qed.

Lemma Qc_fsum_demean (l : list Qc) : fsum (demean l) = 0%Qc.
Proof.
  destruct l as [ | x t ]; [ reflexivity | ].
  unfold demean.
  rewrite (map_ext _ (fun v => (1 * v + - mean (x :: t))%Qc))
    by (intros v; qc_ops; ring).
  rewrite Qc_fsum_affine.
  pose proof (Qc_mean_times_length (x :: t)) as H.
  rewrite <- H by discriminate; ring.
Qed.

Lemma Qc_feqb_true (x y : Qc) : feqb x y = true <-> x = y.
Proof. apply (feqb_eq (N := Num_Qc)). Qed.

Lemma Qc_feqb_false (x y : Qc) : feqb x y = false <-> x <> y.
Proof.
  rewrite <- Qc_feqb_true; destruct (feqb x y); split; congruence.
Qed.

Lemma Qc_mean_scale (c : Qc) (ts : list Qc) :
  mean (map (Qcmult c) ts) = (c * mean ts)%Qc.
Proof.
  destruct ts as [ | x t ]; [ change (0 = c * 0)%Qc; ring | ].
  unfold mean; rewrite length_map.
  rewrite (map_ext _ (fun v => (c * v + 0)%Qc)) by (intros v; ring).
  rewrite Qc_fsum_affine; qc_ops.
  field; apply Qc_of_Z_nonzero; simpl; lia.
Qed.

(** X11: in exact arithmetic, [spc] returns a series of mean zero unchanged
    (it is divided by 1), its result always sums to zero, and for a series
    whose mean is not zero the result does not change when the series is
    multiplied by a non-zero constant. *)
Theorem spc_exact (ts : list Qc) :
  (mean ts = 0%Qc -> spc ts = ts) /\
  fsum (spc ts) = 0%Qc /\
  (forall c : Qc, c <> 0%Qc -> mean ts <> 0%Qc ->
     spc (map (Qcmult c) ts) = spc ts).
Proof.
  assert (H0 : mean ts = 0%Qc -> spc ts = ts).
  { intros Hm; unfold spc; rewrite Hm.
    rewrite <- (map_id ts) at 2; apply map_ext; intros x.
    cbn [fisnan Num_Qc]; qc_ops.
    change (feqb 0%Qc 0%Qc) with true; cbv iota; field; discriminate. }
  split; [ exact H0 | split ].
  - destruct (Qc_eq_dec (mean ts) 0%Qc) as [Hm | Hm].
    + rewrite (H0 Hm).
      destruct ts as [ | x t ]; [ reflexivity | ].
      rewrite <- (Qc_mean_times_length (x :: t)) by discriminate.
      rewrite Hm; ring.
    + unfold spc.
      apply Qc_feqb_false in Hm; change f0 with 0%Qc; rewrite Hm.
      apply Qc_feqb_false in Hm.
      rewrite (map_ext _ (fun v => (/ mean ts * v + Qcopp 1)%Qc))
        by (intros v; cbn [fisnan Num_Qc]; qc_ops; field; exact Hm).
      rewrite Qc_fsum_affine.
      destruct ts as [ | x t ]; [ reflexivity | ].
      rewrite <- (Qc_mean_times_length (x :: t)) by discriminate.
      field; exact Hm.
  - intros c Hc Hm; unfold spc.
    rewrite Qc_mean_scale, map_map.
    assert (Hcm : (c * mean ts)%Qc <> 0%Qc).
    { intros E; apply Qcmult_integral in E; tauto. }
    change f0 with 0%Qc.
    rewrite (proj2 (Qc_feqb_false _ _) Hcm), (proj2 (Qc_feqb_false _ _) Hm).
    apply map_ext; intros x; cbn [fisnan Num_Qc]; qc_ops; field; tauto.
Qed.

(** ** The trace returned without convolution *)

(** X12: when the response function is [None] or one of the strings none, None
    and NONE, whatever [compute_petco2hrf] returns has, in exact arithmetic,
    entries that sum to zero; without end-tidal interpolation it returns for
    every input of at most one dimension once squeezed, with the shape of the
    squeezed input. *)
Theorem compute_petco2hrf_zero_mean (W : World Qc) (co2 : ndarray Qc)
        (pidx : list Z) (freq : Qc) (outprefix : string) (mode : conv_mode)
        (rf : response_function Qc) :
  let run ce := compute_petco2hrf co2 pidx freq outprefix ce rf mode in
  rf = RF_None \/ (exists s, rf = RF_str s /\ In s ["none"; "None"; "NONE"]) ->
  (forall ce petco2, outcome (run ce) = Ok petco2 -> fsum (data petco2) = 0%Qc) /\
  ((ndim (squeeze co2) <= 1)%nat ->
   exists petco2,
     outcome (run false) = Ok petco2 /\
     shape petco2 = shape (squeeze co2) /\
     length (data petco2) = length (data co2)).
Proof.
  intros run Hrf; subst run.
  assert (Hn : rf_not_in_nones rf = Ok false).
  { destruct Hrf as [-> | [s [-> [<- | [<- | [<- | []]]]]]]; reflexivity. }
  split.
  - intros ce petco2; unfold compute_petco2hrf.
    destruct (Nat.ltb_spec 1 (ndim (squeeze co2))); [ discriminate | ].
    rewrite Hn; destruct ce.
    + destruct (ndim (squeeze co2) =? 0)%nat; run_py; [ discriminate | ].
      destruct (endtidal_interpolation (data (squeeze co2)) pidx) as [ t | e ];
        run_py; [ | discriminate ].
      intros E; inversion E; subst; apply Qc_fsum_demean.
    + run_py; intros E; inversion E; subst; apply Qc_fsum_demean.
  - intros Hd; unfold compute_petco2hrf.
    destruct (Nat.ltb_spec 1 (ndim (squeeze co2))); [ lia | ].
    rewrite Hn; run_py.
    eexists; split; [ reflexivity | split; [ reflexivity | ] ].
    cbn [data]; apply demean_length.
Qed.

Lemma compute_petco2hrf_zero_mean_witness :
  exists petco2,
    outcome (compute_petco2hrf (W := Fixture.world 0)
               (mk_ndarray [1; 10]%nat Fixture.digits) [] (Fixture.q 40 1)
               "out/sub" false (RF_str "None") Full) = Ok petco2 /\
    shape petco2 = [10%nat] /\
    length (data petco2) = 10%nat /\
    fsum (data petco2) = 0%Qc.
Proof.
  pose proof (compute_petco2hrf_zero_mean (Fixture.world 0)
                (mk_ndarray [1; 10]%nat Fixture.digits) [] (Fixture.q 40 1)
                "out/sub" Full (RF_str "None")) as H.
  destruct H as [Hz Hr].
  - right; exists "None"; split; [ reflexivity | simpl; tauto ].
  - destruct Hr as [petco2 [Ho [Hs Hl]]]; [ vm_compute; lia | ].
    exists petco2; split; [ exact Ho | split; [ exact Hs | split; [ exact Hl | ] ] ].
    exact (Hz false petco2 Ho).
Defined.

(** ** Legendre polynomials: [create_legendre] *)

Section LegendreShape.
Context {F : Type} {N : Num F} {P32 : Float32 F}.

(** X13: [create_legendre] returns one row per sample and one column per
    order, that is [length] rows of [degree + 1] entries, whose first column
    holds single-precision ones; a negative [length], and a [degree] below
    -1, raise ValueError. *)
Theorem create_legendre_shape (degree len : Z) :
  (0 <= len -> -1 <= degree ->
   exists rows,
     create_legendre degree len = Ok rows /\
     Z.of_nat (length rows) = len /\
     Forall (fun row => Z.of_nat (length row) = degree + 1 /\
                        (0 <= degree -> hd_error row = Some (to_float32 f1)))
            rows) /\
  (len < 0 ->
   exists msg, create_legendre degree len = Raise (mk_exn ValueError msg)) /\
  (0 <= len -> degree < -1 ->
   exists msg, create_legendre degree len = Raise (mk_exn ValueError msg)).
Proof.
  unfold create_legendre; split; [ | split ].
  - intros Hl Hd.
    destruct (linspace_ok (of_Z (-1)) (of_Z 1) len Hl) as [x [-> Hx]].
    cbn [rbind]; destruct (Z.ltb_spec (degree + 1) 0); [ lia | ].
    eexists; split; [ reflexivity | split ].
    + rewrite length_map, Hx; lia.
    + apply Forall_forall; intros row Hr; apply in_map_iff in Hr.
      destruct Hr as [xi [<- _]]; split.
      * rewrite length_map, length_seq; lia.
      * intros H0.
        destruct (Z.to_nat (degree + 1)) as [ | n ] eqn:E; [ lia | ].
        reflexivity.
  - intros Hl; unfold linspace.
    destruct (Z.ltb_spec len 0); [ eexists; reflexivity | lia ].
  - intros Hl Hd.
    destruct (linspace_ok (of_Z (-1)) (of_Z 1) len Hl) as [x [-> Hx]].
    cbn [rbind]; destruct (Z.ltb_spec (degree + 1) 0);
      [ eexists; reflexivity | lia ].
Qed.
End LegendreShape.

Lemma bonnet_step (n : nat) (x : Qc) :
  _bonnet (S (S n)) x =
  ((of_Z (2 * Z.of_nat (S (S n)) - 1) * x * _bonnet (S n) x
    - of_Z (Z.of_nat (S (S n)) - 1) * _bonnet n x)
   / of_Z (Z.of_nat (S (S n))))%Qc.
Proof. reflexivity. Qed.

Lemma Qc_of_Z_odd_split (k : Z) :
  (of_Z (2 * k - 1) : Qc) = (of_Z k + of_Z (k - 1))%Qc.
Proof. rewrite <- Qc_of_Z_add; f_equal; lia. Qed.

Lemma bonnet_at_one (n : nat) : _bonnet n (1%Qc) = 1%Qc.
Proof.
  enough (H : _bonnet n 1%Qc = 1%Qc /\ _bonnet (S n) 1%Qc = 1%Qc) by apply H.
  induction n as [ | n [IH1 IH2] ]; [ split; reflexivity | ].
  split; [ exact IH2 | ].
  rewrite bonnet_step, IH1, IH2, Qc_of_Z_odd_split.
  field; apply Qc_of_Z_nonzero; lia.
Qed.

Lemma bonnet_at_minus_one (n : nat) :
  _bonnet n (- (1))%Qc = if Nat.even n then 1%Qc else (- (1))%Qc.
Proof.
  enough (H : _bonnet n (- (1))%Qc = (if Nat.even n then 1 else - (1))%Qc /\
              _bonnet (S n) (- (1))%Qc = (if Nat.even n then - (1) else 1)%Qc).
  { apply H. }
  induction n as [ | n [IH1 IH2] ]; [ split; reflexivity | ].
  split.
  - rewrite IH2, Nat.even_succ, <- Nat.negb_even.
    destruct (Nat.even n); reflexivity.
  - rewrite bonnet_step, IH1, IH2, Qc_of_Z_odd_split.
    rewrite Nat.even_succ, <- Nat.negb_even.
    destruct (Nat.even n); cbn [negb];
      field; apply Qc_of_Z_nonzero; lia.
Qed.

Lemma linspace_ends (a b : Qc) (num : Z) :
  2 <= num ->
  exists mid, linspace a b num = Ok (a :: mid ++ [b]) /\
              Z.of_nat (length mid) = num - 2.
Proof.
  intros Hn; unfold linspace.
  destruct (Z.ltb_spec num 0); [ lia | ].
  destruct (Z.ltb_spec 0 (num - 1)); [ | lia ].
  destruct (Z.ltb_spec 1 num); [ | lia ].
  unfold arangeZ.
  destruct (Z.to_nat num) as [ | [ | k ] ] eqn:E; [ lia | lia | ].
  set (g := fun v : Qc => fadd v a).
  set (y := if feqb (fdiv (fsub b a) (of_Z (num - 1))) f0
            then map (fun v => fmul (fdiv v (of_Z (num - 1))) (fsub b a))
                     (map of_Z (map Z.of_nat (seq 0 (S (S k)))))
            else map (fun v => fmul v (fdiv (fsub b a) (of_Z (num - 1))))
                     (map of_Z (map Z.of_nat (seq 0 (S (S k)))))).
  assert (Hy : exists t, map g y = a :: t /\ length t = S k).
  { subst y; destruct (feqb _ _); cbn [seq map];
      (eexists; split;
       [ apply f_equal2; [ | reflexivity ];
         subst g; cbv beta; change (Z.of_nat 0) with 0; qc_ops; field;
         apply Qc_of_Z_nonzero; lia
       | cbn [length]; now rewrite !length_map, length_seq ]). }
  destruct Hy as [t [Ht Hl]]; fold g; fold y; rewrite Ht.
  exists (removelast t); split.
  - f_equal; destruct t as [ | t0 t ]; [ discriminate | reflexivity ].
  - rewrite removelast_firstn_len, length_firstn, Hl; lia.
Qed.

(** X14: in exact arithmetic the recursion of Bonnet gives, at the two ends
    of the grid, the values of the Legendre polynomials there: for at least
    two samples the last row of [create_legendre] holds 1 in every column
    and the first row alternates between 1 and -1. *)
Theorem create_legendre_end_rows (degree len : Z) :
  2 <= len -> 0 <= degree ->
  exists first mid last,
    create_legendre (F := Qc) degree len = Ok (first :: mid ++ [last]) /\
    Z.of_nat (length mid) = len - 2 /\
    first = map (fun n => if Nat.even n then 1%Qc else (- (1))%Qc)
                (seq 0 (Z.to_nat (degree + 1))) /\
    last = repeat 1%Qc (Z.to_nat (degree + 1)).
Proof.
  intros Hl Hd; unfold create_legendre.
  destruct (linspace_ends (of_Z (-1)) (of_Z 1) len Hl) as [mid [-> Hm]].
  cbn [rbind]; destruct (Z.ltb_spec (degree + 1) 0); [ lia | ].
  cbn [map to_float32 Float32_Qc]; rewrite map_app; cbn [map].
  do 3 eexists; split; [ reflexivity | split; [ | split ] ].
  - now rewrite length_map.
  - apply map_ext; intros n; apply (bonnet_at_minus_one n).
  - rewrite (map_ext _ (fun _ => 1%Qc)) by (intros n; apply (bonnet_at_one n)).
    now rewrite map_const, length_seq.
Qed.

Lemma create_legendre_end_rows_witness :
  exists first mid last,
    create_legendre (F := Qc) 3 5 = Ok (first :: mid ++ [last]) /\
    Z.of_nat (length mid) = 3 /\
    first = [1; - (1); 1; - (1)]%Qc /\
    last = [1; 1; 1; 1]%Qc.
Proof.
  apply (create_legendre_end_rows 3 5); lia.
Defined.

(** ** Resampling by an integer factor *)

(** In exact arithmetic, bringing a series of [L] samples from a frequency
    to [k] times that frequency gives [k * (L - 1) + 1] samples.  This is a
    fact of the rationals only: in binary64 the product [(L - 1) / f * f] can
    fall just below [L - 1], and [int] then drops a whole sample (see
    [resample_signal_freqs_loses_a_sample]). *)
Lemma resample_signal_freqs_integer_ratio (ts : list Qc) (freq1 : Qc) (k : Z) :
  ts <> [] -> freq1 <> 0%Qc -> 0 <= k ->
  exists r,
    resample_signal_freqs ts freq1 (of_Z k * freq1)%Qc = Ok r /\
    Z.of_nat (length r) = k * (Z.of_nat (length ts) - 1) + 1.
Proof.
  intros Hts Hf Hk.
  assert (Hx : fmul (fdiv (of_Z (Z.of_nat (length ts) - 1)) freq1)
                    (of_Z k * freq1)%Qc
               = of_Z (k * (Z.of_nat (length ts) - 1))).
  { rewrite Qc_of_Z_mul; qc_ops; field; exact Hf. }
  destruct (resample_signal_freqs_ok ts freq1 (of_Z k * freq1)%Qc) as [r [Hr Hl]].
  - exact Hts.
  - now apply Qc_feqb_false.
  - reflexivity.
  - rewrite Hx, Qc_trunc_of_Z.
    assert (0 < Z.of_nat (length ts)) by (destruct ts; [ congruence | simpl; lia ]).
    nia.
  - exists r; split; [ exact Hr | ].
    now rewrite Hl, Hx, Qc_trunc_of_Z.
Qed.

Lemma resample_signal_freqs_integer_ratio_witness :
  exists r,
    resample_signal_freqs (Fixture.ramp 10) (Fixture.q 2 3)
                          (of_Z 4 * Fixture.q 2 3)%Qc = Ok r /\
    Z.of_nat (length r) = 37.
Proof.
  refine (resample_signal_freqs_integer_ratio (Fixture.ramp 10) (Fixture.q 2 3) 4
            _ _ _).
  - discriminate.
  - discriminate.
  - lia.
Defined.

(** In binary64, 59 samples brought from 100 Hz to 100 Hz come out as 58:
    [58 / 100 * 100] is [57.999999999999993], and [int] truncates. *)
Example resample_signal_freqs_loses_a_sample :
  exists r,
    resample_signal_freqs (map float_of_Z (arangeZ 59)) 100%float 100%float
    = Ok r /\
    length r = 58%nat.
Proof.
  destruct (resample_signal_freqs_ok (map float_of_Z (arangeZ 59))
              100%float 100%float) as [r [Hr Hl]];
    [ vm_compute; discriminate | reflexivity | reflexivity
    | vm_compute; discriminate | ].
  exists r; split; [ exact Hr | ].
  apply Nat2Z.inj; rewrite Hl; reflexivity.
Qed.

(** ** The range of a convolved signal *)

Lemma py_min_from_lower {F : Type} {N : Num F} {E : ExactNum N} (cur : F) l :
  forall v, In v (cur :: l) -> fltb v (py_min_from cur l) = false.
Proof.
  revert cur; induction l as [ | x t IH ]; intros cur v Hv.
  - destruct Hv as [<- | []]; apply fltb_irrefl.
  - cbn [py_min_from].
    destruct (fltb x cur) eqn:Hx.
    + destruct Hv as [<- | Hv]; [ | apply IH; exact Hv ].
      apply fltb_cotrans with (y := x); [ | apply IH; now left ].
      destruct (fltb cur x) eqn:Hc; [ | reflexivity ].
      pose proof (fltb_trans _ _ _ Hc Hx) as H; rewrite fltb_irrefl in H.
      discriminate.
    + destruct Hv as [<- | [<- | Hv]].
      * apply IH; now left.
      * apply fltb_cotrans with (y := cur); [ exact Hx | apply IH; now left ].
      * apply IH; now right.
Qed.

Lemma Qc_this_mul (x y : Qc) : (this (fmul x y) == this x * this y)%Q.
Proof. exact (Qred_correct (this x * this y)). Qed.

Lemma Qc_this_sub (x y : Qc) : (this (fsub x y) == this x - this y)%Q.
Proof.
  change (Qred (this x + Qred (- this y)) == this x - this y)%Q.
  rewrite !Qred_correct; reflexivity.
Qed.

(** [np.interp] between two points stays between their ordinates. *)
Lemma np_interp2_range (x xp0 xp1 fp0 fp1 : Qc) :
  (xp0 <= x)%Qc -> (x <= xp1)%Qc -> (fp0 <= fp1)%Qc ->
  (fp0 <= np_interp2 x xp0 xp1 fp0 fp1 <= fp1)%Qc.
Proof.
  intros H0 H1 Hf; unfold np_interp2.
  destruct (fltb x xp0); [ split; [ apply Qcle_refl | exact Hf ] | ].
  destruct (fltb xp1 x); [ split; [ exact Hf | apply Qcle_refl ] | ].
  destruct (feqb x xp1) eqn:E1; [ split; [ exact Hf | apply Qcle_refl ] | ].
  destruct (feqb x xp0) eqn:E0; [ split; [ apply Qcle_refl | exact Hf ] | ].
  apply Qc_feqb_false in E1, E0.
  assert (N0 : ~ (this x == this xp0)%Q)
    by (intros Hz; apply E0, Qc_is_canon; exact Hz).
  assert (N1 : ~ (this x == this xp1)%Q)
    by (intros Hz; apply E1, Qc_is_canon; exact Hz).
  unfold Qcle in *.
  assert (L0 : (this xp0 < this x)%Q)
    by (destruct (Qle_lt_or_eq _ _ H0) as [H | H];
        [ exact H | now symmetry in H ]).
  assert (L1 : (this x < this xp1)%Q)
    by (destruct (Qle_lt_or_eq _ _ H1) as [H | H]; [ exact H | contradiction ]).
  assert (Hd : ~ (this xp1 - this xp0 == 0)%Q) by lra.
  pose proof (Qmult_div_r (this fp1 - this fp0) (this xp1 - this xp0) Hd) as Hu.
  rewrite Qc_this_add, Qc_this_mul, Qc_this_div, !Qc_this_sub.
  set (u := ((this fp1 - this fp0) / (this xp1 - this xp0))%Q) in *.
  assert (Hu0 : (0 <= u)%Q).
  { destruct (Qlt_le_dec u 0) as [Hn | Hp]; [ | exact Hp ].
    exfalso; nra. }
  split; nra.
Qed.

Lemma convolve_signal_numeric {F : Type} {N : Num F} {W : World F}
      (signal : ndarray F) (freq : F) (rf : response_function F) (k : list F)
      (mode : conv_mode) :
  rf = RF_list (Numeric k) \/ rf = RF_ndarray (Numeric k) ->
  (ndim (squeeze signal) <= 1)%nat ->
  data signal <> [] ->
  k <> [] ->
  exists c0 ct s0 st,
    data signal = s0 :: st /\
    outcome (convolve_signal signal freq rf mode) =
    Ok (array1d (map (fun x => np_interp2 x (py_min_from c0 ct)
                                          (py_max_from c0 ct)
                                          (py_min_from s0 st)
                                          (py_max_from s0 st))
                     (c0 :: ct))).
Proof.
  intros Hrf Hd Hs Hk.
  destruct (data signal) as [ | s0 st ] eqn:Es; [ congruence | ].
  destruct k as [ | k0 kt ]; [ congruence | ].
  assert (Hc : exists c0 ct,
             np_convolve (squeeze signal) (k0 :: kt) mode = Ok (c0 :: ct)).
  { unfold np_convolve.
    destruct (Nat.ltb_spec 1 (ndim (squeeze signal))); [ lia | ].
    change (data (squeeze signal)) with (data signal); rewrite Es.
    cbn [length Nat.eqb].
    match goal with
    | |- exists c0 ct, Ok ?c = _ =>
        assert (Hl : (0 < length c)%nat); [ | destruct c as [ | c0 ct ] ]
    end.
    - assert (Hf : length (conv_full (s0 :: st) (k0 :: kt))
                   = (length (s0 :: st) + length (k0 :: kt) - 1)%nat)
        by (unfold conv_full; now rewrite length_map, length_seq).
      cbn [length] in Hf.
      destruct mode; rewrite ?length_firstn, ?length_skipn, Hf.
      + lia.
      + lia.
      + assert ((Nat.min (S (length st)) (S (length kt)) - 1) / 2
                <= Nat.min (S (length st)) (S (length kt)) - 1)%nat
          by (apply Nat.Div0.div_le_upper_bound; lia).
        lia.
    - simpl in Hl; lia.
    - now exists c0, ct. }
  destruct Hc as [c0 [ct Hc]].
  exists c0, ct, s0, st; split; [ reflexivity | ].
  unfold convolve_signal.
  pose proof (ndim_squeeze_le signal).
  destruct (Nat.ltb_spec 2 (ndim (squeeze signal))); [ lia | ].
  destruct Hrf as [-> | ->]; run_py; rewrite Hc;
    change (data (squeeze signal)) with (data signal); rewrite Es; reflexivity.
Qed.

(** X16: in exact arithmetic, the result of convolving a non-empty 1-D
    signal with a non-empty numeric kernel is rescaled into the range of the
    signal: every sample lies between the minimum and the maximum of the
    signal, and the maximum is attained. *)
Theorem convolve_signal_range (W : World Qc) (signal : ndarray Qc) (freq : Qc)
        (rf : response_function Qc) (k : list Qc) (mode : conv_mode) :
  rf = RF_list (Numeric k) \/ rf = RF_ndarray (Numeric k) ->
  (ndim (squeeze signal) <= 1)%nat ->
  data signal <> [] ->
  k <> [] ->
  exists c lo hi,
    outcome (convolve_signal signal freq rf mode) = Ok (array1d c) /\
    py_min (data signal) = Ok lo /\
    py_max (data signal) = Ok hi /\
    (forall v, In v c -> (lo <= v <= hi)%Qc) /\
    In hi c.
Proof.
  intros Hrf Hd Hs Hk.
  destruct (convolve_signal_numeric signal freq rf k mode Hrf Hd Hs Hk)
    as [c0 [ct [s0 [st [Es Ho]]]]].
  set (cmin := py_min_from c0 ct) in *; set (cmax := py_max_from c0 ct) in *.
  set (lo := py_min_from s0 st) in *; set (hi := py_max_from s0 st) in *.
  assert (Hlo : forall v, In v (s0 :: st) -> (lo <= v)%Qc)
    by (intros v Hv; apply Qc_fltb_false, py_min_from_lower, Hv).
  assert (Hhi : forall v, In v (s0 :: st) -> (v <= hi)%Qc)
    by (intros v Hv; apply Qc_fltb_false, py_max_from_upper, Hv).
  assert (Hcl : forall v, In v (c0 :: ct) -> (cmin <= v)%Qc)
    by (intros v Hv; apply Qc_fltb_false, py_min_from_lower, Hv).
  assert (Hch : forall v, In v (c0 :: ct) -> (v <= cmax)%Qc)
    by (intros v Hv; apply Qc_fltb_false, py_max_from_upper, Hv).
  assert (Hlh : (lo <= hi)%Qc)
    by (apply Qcle_trans with s0; [ apply Hlo | apply Hhi ]; now left).
  eexists; exists lo, hi; split; [ exact Ho | ].
  rewrite Es; split; [ reflexivity | split; [ reflexivity | split ] ].
  - intros v Hv; apply in_map_iff in Hv; destruct Hv as [x [<- Hx]].
    apply np_interp2_range; [ now apply Hcl | now apply Hch | exact Hlh ].
  - apply in_map_iff; exists cmax; split; [ | apply py_max_from_In ].
    unfold np_interp2.
    rewrite (proj2 (Qc_fltb_false cmax cmin))
      by (apply Hcl, py_max_from_In).
    rewrite (proj2 (Qc_fltb_false cmax cmax)) by apply Qcle_refl.
    now rewrite (proj2 (Qc_feqb_true cmax cmax)).
Qed.

Lemma convolve_signal_range_witness :
  exists c lo hi,
    outcome (convolve_signal (W := Fixture.world 0) (array1d Fixture.digits)
               (Fixture.q 40 1) (RF_ndarray (Numeric (Fixture.ramp 4))) Full)
    = Ok (array1d c) /\
    py_min Fixture.digits = Ok lo /\
    py_max Fixture.digits = Ok hi /\
    (forall v, In v c -> (lo <= v <= hi)%Qc) /\
    In hi c.
Proof.
  refine (convolve_signal_range (Fixture.world 0) (array1d Fixture.digits)
            (Fixture.q 40 1) (RF_ndarray (Numeric (Fixture.ramp 4)))
            (Fixture.ramp 4) Full _ _ _ _).
  - now right.
  - vm_compute; lia.
  - discriminate.
  - discriminate.
Defined.

(** ** Resampling on the grid of the samples *)

(** Interpolation over a grid of integers, read as rationals, is the
    interpolation over the integers. *)
Lemma Qc_of_Z_sub (a b : Z) : fsub (of_Z a : Qc) (of_Z b) = of_Z (a - b).
Proof.
  replace (a - b) with (a + - b) by lia.
  rewrite Qc_of_Z_add, Qc_of_Z_opp; qc_ops; ring.
Qed.

Lemma Qc_of_Z_ltb (a b : Z) : fltb (of_Z a : Qc) (of_Z b) = (a <? b).
Proof. apply (of_Z_lt (N := Num_Qc)). Qed.

Lemma py_index_map {A B} (f : A -> B) (l : list A) (i : Z) :
  py_index (map f l) i =
  match py_index l i with Ok x => Ok (f x) | Raise e => Raise e end.
Proof.
  unfold py_index; rewrite length_map.
  destruct (_ || _); [ reflexivity | ].
  rewrite nth_error_map; destruct (nth_error l _); reflexivity.
Qed.

Lemma rmap_map {A B C} (f : B -> result C) (h : A -> B) (l : list A) :
  rmap f (map h l) = rmap (fun x => f (h x)) l.
Proof.
  induction l as [ | x t IH ]; simpl; [ reflexivity | now rewrite IH ].
Qed.

Lemma rmap_ext {A B} (f g : A -> result B) (l : list A) :
  (forall x, f x = g x) -> rmap f l = rmap g l.
Proof.
  intros H; induction l as [ | x t IH ]; simpl; [ reflexivity | ].
  now rewrite H, IH.
Qed.

Local Abbreviation on_grid := (fun p : Z * Qc => (of_Z (fst p) : Qc, snd p)).

Lemma insert_xy_on_grid (p : Z * Qc) (l : list (Z * Qc)) :
  insert_xy fltb (on_grid p) (map on_grid l) = map on_grid (insert_xy Z.ltb p l).
Proof.
  induction l as [ | q t IH ]; [ reflexivity | ].
  cbn [map insert_xy fst]; rewrite Qc_of_Z_ltb.
  destruct (fst p <? fst q); [ reflexivity | ].
  cbn [map]; now rewrite <- IH.
Qed.

Lemma sort_xy_on_grid (l : list (Z * Qc)) :
  sort_xy fltb (map on_grid l) = map on_grid (sort_xy Z.ltb l).
Proof.
  induction l as [ | p t IH ]; [ reflexivity | ].
  unfold sort_xy in *; cbn [map fold_right].
  now rewrite IH, insert_xy_on_grid.
Qed.

Lemma combine_on_grid (xs : list Z) (ys : list Qc) :
  combine (map of_Z xs) ys = map on_grid (combine xs ys).
Proof.
  revert ys; induction xs as [ | x t IH ]; intros [ | y u ]; try reflexivity.
  cbn [map combine fst snd]; now rewrite IH.
Qed.

Lemma searchsorted_on_grid (xs : list Z) (p : Z) :
  searchsorted fltb (map (of_Z (F := Qc)) xs) (of_Z p) = searchsorted Z.ltb xs p.
Proof.
  induction xs as [ | x t IH ]; [ reflexivity | ].
  cbn [map searchsorted]; rewrite Qc_of_Z_ltb, IH; reflexivity.
Qed.

Lemma call_linear_on_grid (pts : list (Z * Qc)) (p : Z) :
  call_linear fltb fsub (fun x : Qc => x) (map on_grid pts) (of_Z p) =
  call_linear Z.ltb Z.sub of_Z pts p.
Proof.
  unfold call_linear.
  replace (map fst (map on_grid pts)) with (map (of_Z (F := Qc)) (map fst pts))
    by (rewrite !map_map; reflexivity).
  replace (map snd (map on_grid pts)) with (map snd pts)
    by (rewrite map_map; reflexivity).
  rewrite searchsorted_on_grid, length_map, !py_index_map.
  repeat match goal with
         | |- context [ py_index ?l ?i ] =>
             destruct (py_index l i); cbn [rbind]; [ | reflexivity ]
         end.
  now rewrite !Qc_of_Z_sub.
Qed.

Lemma arangeZ_sorted (n : Z) : StronglySorted Z.lt (arangeZ n).
Proof.
  unfold arangeZ; generalize (Z.to_nat n) as k, 0%nat as s.
  induction k as [ | k IH ]; intros s; cbn [seq map]; constructor;
    [ apply IH | ].
  apply Forall_forall; intros x Hx; apply in_map_iff in Hx.
  destruct Hx as [i [<- Hi]]; apply in_seq in Hi; lia.
Qed.

Lemma linspace_integer_grid (L : Z) :
  2 <= L -> linspace (f0 : Qc) (of_Z (L - 1)) L = Ok (map of_Z (arangeZ L)).
Proof.
  intros HL; unfold linspace.
  destruct (Z.ltb_spec L 0); [ lia | ].
  destruct (Z.ltb_spec 0 (L - 1)); [ | lia ].
  destruct (Z.ltb_spec 1 L); [ | lia ].
  assert (Hs : fdiv (fsub (of_Z (L - 1)) (f0 : Qc)) (of_Z (L - 1)) = 1%Qc)
    by (qc_ops; field; apply Qc_of_Z_nonzero; lia).
  rewrite Hs; change (feqb 1%Qc f0) with false; cbv iota.
  rewrite map_map.
  rewrite (map_ext _ (fun v : Qc => v)) by (intros v; qc_ops; ring).
  rewrite map_id; f_equal.
  unfold arangeZ.
  replace (Z.to_nat L) with (S (Z.to_nat (L - 1))) by lia.
  rewrite seq_S, !map_app; cbn [map Nat.add]; rewrite removelast_last.
  now rewrite Z2Nat.id by lia.
Qed.

Lemma resample_knot (ts : list Qc) (j : nat) (y : Qc) :
  (2 <= length ts)%nat -> nth_error ts j = Some y ->
  call_linear fltb fsub (fun x : Qc => x)
    (sort_xy fltb (combine (map of_Z (arangeZ (Z.of_nat (length ts)))) ts))
    (of_Z (Z.of_nat j)) = Ok y.
Proof.
  intros HL Hy.
  rewrite combine_on_grid, sort_xy_on_grid, call_linear_on_grid.
  rewrite sort_xy_sorted by apply arangeZ_sorted.
  assert (Hj : (j < length ts)%nat) by (apply nth_error_Some; congruence).
  destruct (call_linear_at_knot (arangeZ (Z.of_nat (length ts))) ts j (Z.of_nat j))
    as [y' [Hy' Hc]].
  - apply arangeZ_sorted.
  - now rewrite arangeZ_length, Nat2Z.id.
  - rewrite arangeZ_length, Nat2Z.id; exact HL.
  - rewrite <- (Nat2Z.id j) at 1; apply nth_error_arangeZ; lia.
  - congruence.
Qed.

Lemma rmap_pointwise {A B} (f : A -> result B) (l : list A) (l' : list B) :
  length l = length l' ->
  (forall j x y, nth_error l j = Some x -> nth_error l' j = Some y -> f x = Ok y) ->
  rmap f l = Ok l'.
Proof.
  revert l'; induction l as [ | x t IH ]; intros [ | y u ] Hl H;
    try discriminate; [ reflexivity | ].
  cbn [rmap]; rewrite (H 0%nat x y eq_refl eq_refl); cbn [rbind].
  rewrite (IH u); [ reflexivity | simpl in Hl; lia | ].
  intros j a b Ha Hb; exact (H (S j) a b Ha Hb).
Qed.

(** X17: in exact arithmetic, [resample_signal_samples] of a series of at
    least two samples keeps the ends of the series: resampling to the same
    number of samples returns the series unchanged, and resampling to any
    number of samples from two on returns a series with the same first and
    last sample. *)
Theorem resample_signal_samples_keeps_ends (ts : list Qc) (samples : Z) :
  (2 <= length ts)%nat ->
  resample_signal_samples ts (Z.of_nat (length ts)) = Ok ts /\
  (2 <= samples ->
   exists r,
     resample_signal_samples ts samples = Ok r /\
     nth_error r 0 = nth_error ts 0 /\
     nth_error r (Z.to_nat (samples - 1)) = nth_error ts (length ts - 1)).
Proof.
  intros HL.
  assert (Hg : linspace (f0 : Qc) (of_Z (Z.of_nat (length ts) - 1))
                        (Z.of_nat (length ts))
               = Ok (map of_Z (arangeZ (Z.of_nat (length ts)))))
    by (apply linspace_integer_grid; lia).
  assert (Hlen : length (map (of_Z (F := Qc)) (arangeZ (Z.of_nat (length ts))))
                 = length ts)
    by (now rewrite length_map, arangeZ_length, Nat2Z.id).
  assert (Hne : (length ts =? 0)%nat = false) by (apply Nat.eqb_neq; lia).
  split.
  - unfold resample_signal_samples; rewrite Hg; cbn [rbind]; unfold interp1d.
    rewrite Hlen, Nat.eqb_refl, Hne; cbn [negb].
    apply rmap_pointwise; [ exact Hlen | ].
    intros j x y Hx Hy.
    assert (Hj : (j < length ts)%nat) by (apply nth_error_Some; congruence).
    rewrite nth_error_map in Hx.
    rewrite <- (Nat2Z.id j), nth_error_arangeZ in Hx by lia.
    inversion Hx; subst x; now apply resample_knot.
  - intros Hs.
    destruct (linspace_ends (f0 : Qc) (of_Z (Z.of_nat (length ts) - 1))
                            samples Hs) as [mid [Hr Hm]].
    unfold resample_signal_samples; rewrite Hr, Hg; cbn [rbind].
    destruct (interp1d_ok fltb fsub (fun x : Qc => x)
                (map of_Z (arangeZ (Z.of_nat (length ts)))) ts
                (f0 :: mid ++ [of_Z (Z.of_nat (length ts) - 1)]))
      as [r [Hi Hrl]]; [ exact Hlen | | ].
    { intros E; rewrite E in Hlen; simpl in Hlen; lia. }
    exists r; split; [ exact Hi | ].
    unfold interp1d in Hi; rewrite Hlen, Nat.eqb_refl, Hne in Hi; cbn [negb] in Hi.
    destruct (nth_error_in_range ts 0) as [y0 Hy0]; [ lia | ].
    destruct (nth_error_in_range ts (length ts - 1)) as [y1 Hy1]; [ lia | ].
    split.
    + destruct (rmap_nth _ _ _ 0%nat f0 Hi eq_refl) as [y [Hc Hy]].
      change (f0 : Qc) with (of_Z (Z.of_nat 0) : Qc) in Hc.
      rewrite (resample_knot ts 0 y0 HL Hy0) in Hc.
      congruence.
    + destruct (rmap_nth _ _ _ (Z.to_nat (samples - 1))
                         (of_Z (Z.of_nat (length ts) - 1)) Hi) as [y [Hc Hy]].
      { replace (Z.to_nat (samples - 1)) with (S (length mid)) by lia.
        cbn [nth_error].
        rewrite nth_error_app2, Nat.sub_diag by lia; reflexivity. }
      replace (Z.of_nat (length ts) - 1) with (Z.of_nat (length ts - 1)) in Hc
        by lia.
      rewrite (resample_knot ts (length ts - 1) y1 HL Hy1) in Hc.
      congruence.
Qed.

Lemma resample_signal_samples_keeps_ends_witness :
  resample_signal_samples Fixture.digits 10 = Ok Fixture.digits /\
  (2 <= 4 ->
   exists r,
     resample_signal_samples Fixture.digits 4 = Ok r /\
     nth_error r 0 = nth_error Fixture.digits 0 /\
     nth_error r (Z.to_nat (4 - 1)) = nth_error Fixture.digits (10 - 1)).
Proof.
  apply (resample_signal_samples_keeps_ends Fixture.digits 4).
  simpl; lia.
Defined.
